(** * site_to_pdf: page discovery and page ordering

    A shallow embedding of the page-discovery and page-ordering part of
    [site_to_pdf.py] (class [SiteToPDF]): [find_html_files],
    [analyze_page_structure], [find_start_page], [build_page_tree],
    [_extract_sidebar_order], [_resolve_link] and [_resolve_page_path].

    A Python [str] is modelled by the [string] of its UTF-8 bytes (a
    byte that does not decode stands for itself, as in [os.fsdecode]).
    Splitting, stripping and searching by ASCII characters act on the
    bytes as they act on the code points; [Py.len] counts code points.
    [pathlib] paths are a record of an anchor and a list of names; the
    file system, the markup parser and the iteration order of [set] are
    interfaces. *)

From Stdlib Require Import ZArith Lia Ascii.
From stdpp Require Import base list strings gmap pretty.

Local Open Scope Z_scope.
#[local] Set Warnings "-clear-no-such-hyp".

(** ** Python string methods *)

Module Py.

(** [s.startswith(p)] *)
Definition startswith (s p : string) : bool := String.prefix p s.

(** [s.startswith((p1, p2, ...))] *)
Definition startswith_any (s : string) (ps : list string) : bool :=
  existsb (startswith s) ps.

(** [s.endswith(p)] *)
Definition endswith (s p : string) : bool :=
  String.prefix (String.rev p) (String.rev s).

Definition endswith_any (s : string) (ps : list string) : bool :=
  existsb (endswith s) ps.

(** [c in chars], for a character [c] *)
Fixpoint mem_char (c : ascii) (chars : string) : bool :=
  match chars with
  | EmptyString => false
  | String a chars' => if Ascii.eqb c a then true else mem_char c chars'
  end.

(** [s.lstrip(chars)]: drops every leading character that occurs in
    [chars]; [chars] is a set of characters, not a prefix. *)
Fixpoint lstrip (s chars : string) : string :=
  match s with
  | EmptyString => EmptyString
  | String a s' => if mem_char a chars then lstrip s' chars else s
  end.

(** [s.split(sep)] for a one-character separator *)
Fixpoint split (sep : ascii) (s : string) : list string :=
  match s with
  | EmptyString => [EmptyString]
  | String a s' =>
      if Ascii.eqb a sep then EmptyString :: split sep s'
      else match split sep s' with
           | h :: t => String a h :: t
           | [] => [String a EmptyString]
           end
  end.

(** [s.split(sep)[0]] *)
Definition split_head (sep : ascii) (s : string) : string :=
  hd EmptyString (split sep s).

(** [sep.join(l)] *)
Definition join (sep : string) (l : list string) : string :=
  String.concat sep l.

(** [p in s] for strings: [p] occurs in [s] *)
Fixpoint contains (s p : string) : bool :=
  if String.prefix p s then true
  else match s with
       | EmptyString => false
       | String _ s' => contains s' p
       end.

Definition lower_char (c : ascii) : ascii :=
  let n := N_of_ascii c in
  if ((65 <=? n) && (n <=? 90))%N then ascii_of_N (n + 32) else c.

(** [s.lower()] on the ASCII letters; the code uses it to look for the
    text [index] only, and no letter outside ASCII lowers to a run of
    that text. *)
Fixpoint lower (s : string) : string :=
  match s with
  | EmptyString => EmptyString
  | String a s' => String (lower_char a) (lower s')
  end.

(** [s.count(c)] for a character [c] *)
Fixpoint count (c : ascii) (s : string) : nat :=
  match s with
  | EmptyString => 0%nat
  | String a s' => ((if Ascii.eqb a c then 1 else 0) + count c s')%nat
  end.

Definition in_range (lo hi b : N) : bool := ((lo <=? b) && (b <=? hi))%N.

(** A continuation byte of UTF-8. *)
Definition cont (b : N) : bool := in_range 128 191 b.

(** The second byte a three-byte sequence may have after [b0]: no
    overlong form and no surrogate. *)
Definition second3 (b0 b1 : N) : bool :=
  if (b0 =? 224)%N then in_range 160 191 b1
  else if (b0 =? 237)%N then in_range 128 159 b1
  else cont b1.

(** The second byte a four-byte sequence may have after [b0]: no
    overlong form and nothing above U+10FFFF. *)
Definition second4 (b0 b1 : N) : bool :=
  if (b0 =? 240)%N then in_range 144 191 b1
  else if (b0 =? 244)%N then in_range 128 143 b1
  else cont b1.

(** The number of bytes of the code point at the start of [s]: the
    length of the well-formed UTF-8 sequence there, or 1 for a byte
    that starts none (it stands for one code point of its own). *)
Definition utf8_width (s : string) : nat :=
  match s with
  | EmptyString => 0
  | String a0 s1 =>
      let b0 := N_of_ascii a0 in
      if (b0 <? 128)%N then 1
      else match s1 with
           | String a1 s2 =>
               let b1 := N_of_ascii a1 in
               if in_range 194 223 b0 then (if cont b1 then 2 else 1)
               else match s2 with
                    | String a2 s3 =>
                        let b2 := N_of_ascii a2 in
                        if in_range 224 239 b0
                        then (if second3 b0 b1 && cont b2 then 3 else 1)
                        else match s3 with
                             | String a3 _ =>
                                 let b3 := N_of_ascii a3 in
                                 if in_range 240 244 b0 && second4 b0 b1
                                    && cont b2 && cont b3
                                 then 4 else 1
                             | EmptyString => 1
                             end
                    | EmptyString => 1
                    end
           | EmptyString => 1
           end
  end%nat.

(** Counts one code point, then skips the rest of its bytes. *)
Fixpoint len_go (skip : nat) (s : string) : nat :=
  match s with
  | EmptyString => 0
  | String _ s' =>
      match skip with
      | S k => len_go k s'
      | O => S (len_go (utf8_width s - 1) s')
      end
  end%nat.

(** [len(s)]: the number of code points of [s]. *)
Definition len (s : string) : nat := len_go 0 s.

(** [s.strip()] *)
Fixpoint lstrip_space (s : string) : string :=
  match s with
  | EmptyString => EmptyString
  | String a s' => if Ascii.is_space a then lstrip_space s' else s
  end.

Definition strip (s : string) : string :=
  String.rev (lstrip_space (String.rev (lstrip_space s))).

Definition hex_digit (c : ascii) : option N :=
  let n := N_of_ascii c in
  if ((48 <=? n) && (n <=? 57))%N then Some (n - 48)%N
  else if ((65 <=? n) && (n <=? 70))%N then Some (n - 55)%N
  else if ((97 <=? n) && (n <=? 102))%N then Some (n - 87)%N
  else None.

(** [urllib.parse.unquote(s)]: every [%XX] with two hexadecimal digits
    becomes the byte of that code; exact when the decoded bytes are
    well-formed UTF-8. *)
Fixpoint unquote (s : string) : string :=
  match s with
  | EmptyString => EmptyString
  | String a s' =>
      match s' with
      | String h (String l rest) =>
          if Ascii.eqb a "%"%char then
            match hex_digit h, hex_digit l with
            | Some x, Some y => String (ascii_of_N (16 * x + y)) (unquote rest)
            | _, _ => String a (unquote s')
            end
          else String a (unquote s')
      | _ => String a (unquote s')
      end
  end.

(** truth value of a string: [if s] *)
Definition truthy (s : string) : bool :=
  negb (String.eqb s EmptyString).

End Py.

(** ** pathlib paths (POSIX flavour)

    A path is its anchor (no root, [/], or the [//] that POSIX keeps
    apart) and the list of its names; [Path_of s] is Python's [Path(s)]
    and [str p] is [str(p)]. *)

Inductive Anchor := Relative | Root1 | Root2.

Global Instance Anchor_eq_dec : EqDecision Anchor.
Proof. solve_decision. Defined.

Record Path := MkPath { anchor : Anchor; names : list string }.

Global Instance Path_eq_dec : EqDecision Path.
Proof. solve_decision. Defined.

Definition anchor_str (a : Anchor) : string :=
  match a with Relative => EmptyString | Root1 => "/" | Root2 => "//" end.

Definition anchor_of (s : string) : Anchor :=
  match s with
  | String "/" (String "/" (String "/" _)) => Root1
  | String "/" (String "/" _) => Root2
  | String "/" _ => Root1
  | _ => Relative
  end.

(** Empty names and [.] disappear when a string is parsed. *)
Definition kept_name (n : string) : Prop := n ≠ EmptyString ∧ n ≠ ".".

Global Instance kept_name_dec n : Decision (kept_name n).
Proof. unfold kept_name. apply _. Defined.

Definition Path_of (s : string) : Path :=
  MkPath (anchor_of s) (filter kept_name (Py.split "/" s)).

Definition str (p : Path) : string :=
  match anchor p, names p with
  | Relative, [] => "."
  | a, ns => anchor_str a +:+ Py.join "/" ns
  end.

(** [p / s] *)
Definition joinpath (p : Path) (s : string) : Path :=
  let q := Path_of s in
  match anchor q with
  | Relative => MkPath (anchor p) (names p ++ names q)
  | _ => q
  end.

(** [p.parent] *)
Definition parent (p : Path) : Path :=
  MkPath (anchor p) (removelast (names p)).

(** [p.name] *)
Definition name (p : Path) : string := List.last (names p) EmptyString.

(** [p.stem]: the name up to its last dot, when that dot is neither the
    first nor the last character. *)
Definition stem (p : Path) : string :=
  let n := name p in
  match String.index 0 "." (String.rev n) with
  | Some j =>
      let len := String.length n in
      if ((0 <? j) && (S j <? len))%nat
      then String.substring 0 (len - 1 - j) n else n
  | None => n
  end.

(** [p.parts] *)
Definition parts (p : Path) : list string :=
  match anchor p with
  | Relative => names p
  | a => anchor_str a :: names p
  end.

Fixpoint strip_prefix (pre l : list string) : option (list string) :=
  match pre, l with
  | [], _ => Some l
  | x :: pre', y :: l' => if decide (x = y) then strip_prefix pre' l' else None
  | _ :: _, [] => None
  end.

(** [p.relative_to(other)]; [None] stands for the [ValueError]. *)
Definition relative_to (p other : Path) : option Path :=
  if decide (anchor p = anchor other)
  then MkPath Relative <$> strip_prefix (names other) (names p)
  else None.

(** A name as it occurs in a parsed path. *)
Definition valid_name (n : string) : Prop :=
  kept_name n ∧ Py.mem_char "/" n = false.

Global Instance valid_name_dec n : Decision (valid_name n).
Proof. unfold valid_name. apply _. Defined.

Definition wf_path (p : Path) : Prop := Forall valid_name (names p).

(** [p] lies strictly below [root]. *)
Definition below (root p : Path) : Prop :=
  match relative_to p root with
  | Some rel => names rel ≠ []
  | None => False
  end.

Global Instance below_dec root p : Decision (below root p).
Proof. unfold below. destruct (relative_to p root); apply _. Defined.

Global Instance wf_path_dec p : Decision (wf_path p).
Proof. unfold wf_path. apply _. Defined.

(** ** The program's surroundings

    What [BeautifulSoup] hands to the program for one document: the
    queries the program makes, already answered. *)

Record Soup := MkSoup {
  (** [soup.find('title')]: the text of the first title element *)
  soup_title : option string;
  (** [soup.find('meta', attrs={'name': 'description'})]: its [content]
      attribute, when the element exists *)
  soup_meta_description : option (option string);
  (** [[a['href'] for a in soup.find_all('a', href=True)]] *)
  soup_hrefs : list string;
  (** [soup.find('aside', class_='sidebar')]: the [href] attribute of each
      [a.sidebar-link] below it, in document order *)
  soup_aside_sidebar : option (list (option string));
  (** [soup.find('ul', class_='sidebar-links')], likewise *)
  soup_ul_sidebar_links : option (list (option string))
}.

(** The file system, the parser and the hash order of [set], fixed for
    the duration of a run. [None] stands for a raised exception. *)
Record World := MkWorld {
  exists_ : Path → bool;                 (* [p.exists()] *)
  is_file : Path → bool;                 (* [p.is_file()] *)
  resolve : Path → option Path;          (* [p.resolve()] *)
  rglob : Path → string → list Path;     (* [list(p.rglob(pattern))] *)
  stat_size : Path → option Z;           (* [p.stat().st_size] *)
  read_soup : Path → option Soup;        (* [open], [read], [BeautifulSoup] *)
  set_list : list string → list string   (* [list(set(l))] *)
}.

(** [list(set(l))] holds the elements of [l], each once, in some order. *)
Definition set_order_ok (order : list string → list string) : Prop :=
  ∀ l, NoDup (order l) ∧ ∀ x, x ∈ order l ↔ x ∈ l.

(** What every POSIX file system and every Python run guarantee:
    [resolve] returns a normalised path, [rglob] yields normalised paths
    strictly below its directory, a set has its elements once. *)
Definition world_ok (w : World) : Prop :=
  (∀ p q, resolve w p = Some q → wf_path q) ∧
  (∀ root pat p, p ∈ rglob w root pat → wf_path p ∧ below root p) ∧
  set_order_ok (set_list w).

(** ** The converter's state *)

Record PageRecord := MkPageRecord {
  title : string;
  description : string;
  links : list string;
  file : Path;
  depth : Z;
  size : Z;
  relative_path : string
}.

Record SiteToPDF := MkSiteToPDF {
  httrack_dir : Path;
  max_pages : option Z;
  html_files : list Path;
  page_info : list (string * PageRecord);
  visited_pages : gset string
}.

Definition set_html_files (self : SiteToPDF) (l : list Path) : SiteToPDF :=
  MkSiteToPDF (httrack_dir self) (max_pages self) l (page_info self)
    (visited_pages self).

Definition set_page_info (self : SiteToPDF) (d : list (string * PageRecord))
  : SiteToPDF :=
  MkSiteToPDF (httrack_dir self) (max_pages self) (html_files self) d
    (visited_pages self).

Definition set_max_pages (self : SiteToPDF) (cap : option Z) : SiteToPDF :=
  MkSiteToPDF (httrack_dir self) cap (html_files self) (page_info self)
    (visited_pages self).

Definition set_visited_pages (self : SiteToPDF) (v : gset string) : SiteToPDF :=
  MkSiteToPDF (httrack_dir self) (max_pages self) (html_files self)
    (page_info self) v.

(** A Python [dict] keeps its keys in the order of their first insertion. *)
Fixpoint dict_set {V} (d : list (string * V)) (k : string) (v : V)
  : list (string * V) :=
  match d with
  | [] => [(k, v)]
  | (k', v') :: d' =>
      if decide (k' = k) then (k, v) :: d' else (k', v') :: dict_set d' k v
  end.

Fixpoint dict_get {V} (d : list (string * V)) (k : string) : option V :=
  match d with
  | [] => None
  | (k', v') :: d' => if decide (k' = k) then Some v' else dict_get d' k
  end.

Definition keys {V} (d : list (string * V)) : list string := d.*1.

(** How a call ends. *)
Inductive Outcome (A : Type) :=
| Done (a : A)      (* it returns [a] *)
| Raised            (* an exception leaves it *)
| OutOfFuel.        (* the model's iteration budget ran out *)
Arguments Done {A} a.
Arguments Raised {A}.
Arguments OutOfFuel {A}.

(** ** [SiteToPDF]'s methods *)

Section Methods.
Variable w : World.

(** [SiteToPDF(httrack_dir, max_pages=max_pages)] *)
Definition new_SiteToPDF (dir : string) (cap : option Z) : option SiteToPDF :=
  root ← resolve w (Path_of dir);
  Some (MkSiteToPDF root cap [] [] ∅).

Definition exclude_patterns : list string :=
  ["hts-cache"; "hts-log"; "backblue.gif"; "fade.gif"; "index.html~"; "/404"].

Definition excluded (f : Path) : bool :=
  existsb (Py.contains (str f)) exclude_patterns.

Definition find_html_files (self : SiteToPDF) : SiteToPDF :=
  let found := rglob w (httrack_dir self) "*.html"
               ++ rglob w (httrack_dir self) "*.htm" in
  set_html_files self (filter (λ f, excluded f = false) found).

(** [unquote(href.split('#')[0].split('?')[0])] *)
Definition clean_href (href : string) : string :=
  Py.unquote (Py.split_head "?" (Py.split_head "#" href)).

Definition is_page_link (href : string) : bool :=
  Py.truthy href
  && (Py.endswith_any href [".html"; ".htm"] || Py.endswith href "/").

Definition extract_links (soup : Soup) : list string :=
  filter (λ href, is_page_link href = true) (clean_href <$> soup_hrefs soup).

(** The body of the [try] in [analyze_page_structure]: the record of one
    file, or [None] when an exception is raised. *)
Definition page_record (self : SiteToPDF) (html_file : Path)
  : option PageRecord :=
  soup ← read_soup w html_file;
  let title_text :=
    match soup_title soup with
    | Some t => Py.strip t
    | None => stem html_file
    end in
  let description :=
    match soup_meta_description soup with
    | Some content => default EmptyString content
    | None => EmptyString
    end in
  let links := extract_links soup in
  relative_path ← relative_to html_file (httrack_dir self);
  let depth := Z.of_nat (length (parts relative_path)) - 1 in
  size ← stat_size w html_file;
  Some (MkPageRecord title_text description (set_list w links) html_file
          depth size (str relative_path)).

Definition analyze_file (self : SiteToPDF) (html_file : Path) : SiteToPDF :=
  match page_record self html_file with
  | Some r => set_page_info self (dict_set (page_info self) (str html_file) r)
  | None => self
  end.

Definition analyze_page_structure (self : SiteToPDF) : SiteToPDF :=
  foldl analyze_file self (html_files self).

Definition index_names : list string :=
  ["index.html"; "index.htm"; "home.html"; "home.htm";
   "default.html"; "default.htm"; "main.html"; "main.htm"].

(** [min(x :: l, key=key)]: the first element with the least key. *)
Fixpoint min_by {A} (key : A → nat) (best : A) (l : list A) : A :=
  match l with
  | [] => best
  | x :: l' => min_by key (if (key x <? key best)%nat then x else best) l'
  end.

(** [sorted(l, key=key)]: stable, so insertion sort gives the same list. *)
Fixpoint insert_by {A} (key : A → nat) (x : A) (l : list A) : list A :=
  match l with
  | [] => [x]
  | y :: l' =>
      if (key y <? key x)%nat then y :: insert_by key x l' else x :: y :: l'
  end.

Definition sorted_by {A} (key : A → nat) (l : list A) : list A :=
  foldr (insert_by key) [] l.

Definition is_index_file (f : Path) : Prop :=
  Py.contains (Py.lower (name f)) "index" = true.

(** [len(x.relative_to(self.httrack_dir).parts)], paired with [x] *)
Definition depth_key (self : SiteToPDF) (x : Path) : option (nat * Path) :=
  rel ← relative_to x (httrack_dir self); Some (length (parts rel), x).

Definition find_start_page (self : SiteToPDF) : Outcome (option string) :=
  match list_find (λ n, exists_ w (joinpath (httrack_dir self) n) = true)
          index_names with
  | Some (_, n) => Done (Some (str (joinpath (httrack_dir self) n)))
  | None =>
      match filter is_index_file (html_files self) with
      | f :: rest =>
          Done (Some (str (min_by (λ x, Py.len (str x)) f rest)))
      | [] =>
          match html_files self with
          | [] => Done None
          | _ :: _ =>
              match mapM (depth_key self) (html_files self) with
              | None => Raised
              | Some keyed =>
                  match sorted_by fst keyed with
                  | (_, f) :: _ => Done (Some (str f))
                  | [] => Raised
                  end
              end
          end
      end
  end.

Definition _resolve_link (self : SiteToPDF) (current_page link : string)
  : option string :=
  let current_dir := parent (Path_of current_page) in
  if negb (Py.startswith_any link ["http://"; "https://"]) then
    let link := Py.lstrip link "./" in
    let linked_file :=
      if Py.startswith link "/"
      then joinpath (httrack_dir self) (Py.lstrip link "/")
      else joinpath current_dir link in
    let linked_file :=
      if Py.endswith link "/" then joinpath linked_file "index.html"
      else linked_file in
    match resolve w linked_file with
    | Some linked_file =>
        if exists_ w linked_file && is_file w linked_file
        then Some (str linked_file) else None
    | None => None
    end
  else None.

Definition _resolve_page_path (page_path : string) : option string :=
  if Py.endswith page_path "/" then
    let index_path := joinpath (Path_of page_path) "index.html" in
    if exists_ w index_path then Some (str index_path) else None
  else None.

(** [x] for a result [x] that is neither [None] nor the empty string *)
Definition truthy_str (x : option string) : option string :=
  match x with
  | Some s => if Py.truthy s then Some s else None
  | None => None
  end.

(** The page a sidebar anchor contributes: its [href], when it is neither
    empty, external nor a fragment, resolved against the index page. *)
Definition nav_target (self : SiteToPDF) (index_page : string)
    (link : option string) : option string :=
  let href := default EmptyString link in
  if Py.truthy href
     && negb (Py.startswith_any href ["http://"; "https://"; "#"])
  then truthy_str (_resolve_link self index_page href)
  else None.

(** One turn of the loop over the sidebar's anchors. *)
Definition sidebar_step (self : SiteToPDF) (index_page : string)
    (ordered_pages : list string) (link : option string) : list string :=
  match nav_target self index_page link with
  | Some linked_page =>
      if bool_decide (linked_page ∈ ordered_pages) then ordered_pages
      else ordered_pages ++ [linked_page]
  | None => ordered_pages
  end.

(** [soup.find('aside', class_='sidebar')], else
    [soup.find('ul', class_='sidebar-links')]; a found element is truthy. *)
Definition find_sidebar (soup : Soup) : option (list (option string)) :=
  match soup_aside_sidebar soup with
  | Some sidebar => Some sidebar
  | None => soup_ul_sidebar_links soup
  end.

Definition _extract_sidebar_order (self : SiteToPDF) (index_page : string)
  : list string :=
  match read_soup w (Path_of index_page) with
  | Some soup =>
      match find_sidebar soup with
      | Some anchors => foldl (sidebar_step self index_page) [index_page] anchors
      | None => []
      end
  | None => []
  end.

(** [not self.max_pages or len(ordered_pages) < self.max_pages] *)
Definition under_cap (self : SiteToPDF) (ordered_pages : list string) : bool :=
  match max_pages self with
  | None => true
  | Some m => (m =? 0) || (Z.of_nat (length ordered_pages) <? m)
  end.

(** The [for link in ...['links']] loop of the traversal. *)
Definition enqueue_link (self : SiteToPDF) (current_page : string)
    (visited : gset string) (queue : list string) (link : string)
  : list string :=
  match truthy_str (_resolve_link self current_page link) with
  | Some linked_page =>
      if bool_decide (linked_page ∈ visited) then queue
      else queue ++ [linked_page]
  | None => queue
  end.

Definition enqueue_links (self : SiteToPDF) (current_page : string)
    (visited : gset string) (queue : list string) : list string :=
  match dict_get (page_info self) current_page with
  | Some r => foldl (enqueue_link self current_page visited) queue (links r)
  | None => queue
  end.

(** The page a popped queue entry stands for, if any. *)
Definition existing_page (current_page : string) : option string :=
  if exists_ w (Path_of current_page) then Some current_page
  else truthy_str (_resolve_page_path current_page).

(** The [while] loop; every turn uses one unit of [fuel]. *)
Fixpoint bfs_loop (fuel : nat) (self : SiteToPDF) (queue : list string)
    (visited : gset string) (ordered_pages : list string)
  : option (gset string * list string) :=
  match queue with
  | [] => Some (visited, ordered_pages)
  | current_page :: queue =>
      if under_cap self ordered_pages then
        match fuel with
        | O => None
        | S fuel =>
            if bool_decide (current_page ∈ visited)
            then bfs_loop fuel self queue visited ordered_pages
            else
              match existing_page current_page with
              | None => bfs_loop fuel self queue visited ordered_pages
              | Some current_page =>
                  let visited := {[current_page]} ∪ visited in
                  bfs_loop fuel self
                    (enqueue_links self current_page visited queue)
                    visited (ordered_pages ++ [current_page])
              end
        end
      else Some (visited, ordered_pages)
  end.

(** Enough fuel for every traversal (see [bfs_loop_fuel]). *)
Definition bfs_fuel (self : SiteToPDF) : nat :=
  (2 + sum_list ((λ kr, S (length (links kr.2))) <$> page_info self))%nat.

(** The loop that follows the sidebar order. *)
Definition append_missing (ordered_pages : list string) (page_path : string)
  : list string :=
  if bool_decide (page_path ∈ ordered_pages) then ordered_pages
  else ordered_pages ++ [page_path].

(** The loop that follows the traversal. *)
Definition append_unvisited (self : SiteToPDF) (ordered_pages : list string)
    (page_path : string) : list string :=
  if bool_decide (page_path ∈ ordered_pages) then ordered_pages
  else if under_cap self ordered_pages then ordered_pages ++ [page_path]
  else ordered_pages.

(** The lines [build_page_tree] writes to the log. *)
Inductive LogLine :=
| UsingSidebarOrder (found : nat)
| UsingBreadthFirst
| TreeBuilt (pages : nat).

Record Built := MkBuilt {
  ordered : list string;     (* the returned list *)
  logged : list LogLine;
  self_after : SiteToPDF
}.

Definition sidebar_branch (self : SiteToPDF) (ordered_pages : list string)
  : Built :=
  let result := foldl append_missing ordered_pages (keys (page_info self)) in
  MkBuilt result
    [UsingSidebarOrder (length ordered_pages); TreeBuilt (length result)] self.

Definition bfs_branch (self : SiteToPDF) (start_page : string)
  : Outcome Built :=
  match bfs_loop (bfs_fuel self) self [start_page] ∅ [] with
  | Some (visited, ordered_pages) =>
      let result :=
        foldl (append_unvisited self) ordered_pages (keys (page_info self)) in
      Done (MkBuilt result [UsingBreadthFirst; TreeBuilt (length result)]
              (set_visited_pages self visited))
  | None => OutOfFuel
  end.

Definition build_page_tree (self : SiteToPDF) : Outcome Built :=
  match find_start_page self with
  | Done start_page =>
      match truthy_str start_page with
      | None => Done (MkBuilt (str <$> html_files self) [] self)
      | Some start_page =>
          match _extract_sidebar_order self start_page with
          | [] => bfs_branch self start_page
          | ordered_pages => Done (sidebar_branch self ordered_pages)
          end
      end
  | Raised => Raised
  | OutOfFuel => OutOfFuel
  end.

(** [find_html_files], [analyze_page_structure], [build_page_tree], as
    [convert] calls them. *)
Definition indexed (dir : string) (cap : option Z) : option SiteToPDF :=
  self ← new_SiteToPDF dir cap;
  Some (analyze_page_structure (find_html_files self)).

End Methods.

(** ** The table of contents *)

(** The character that delimits attribute values in the markup. *)
Definition dq : string := String "034"%char EmptyString.

(** The page head of [generate_toc_html], up to the entries. *)
Definition toc_head (total_pages : nat) : string :=
  "<!DOCTYPE html>
<html>
<head>
    <meta charset=" +:+ dq +:+ "UTF-8" +:+ dq +:+ ">
    <title>目录</title>
    <style>
        body {
            font-family: Arial, sans-serif;
            max-width: 900px;
            margin: 40px auto;
            padding: 20px;
        }
        h1 {
            color: #333;
            border-bottom: 3px solid #4CAF50;
            padding-bottom: 10px;
        }
        .toc-item {
            margin: 8px 0;
            padding: 8px 10px;
            border-left: 3px solid #ddd;
            transition: all 0.2s;
        }
        .toc-item:hover {
            background-color: #f5f5f5;
            border-left-color: #4CAF50;
        }
        .toc-item.depth-0 {
            margin-left: 0;
            border-left-color: #4CAF50;
            background-color: #f9f9f9;
        }
        .toc-item.depth-1 {
            margin-left: 20px;
            border-left-color: #2196F3;
        }
        .toc-item.depth-2 {
            margin-left: 40px;
            border-left-color: #FF9800;
        }
        .toc-item.depth-3 {
            margin-left: 60px;
            border-left-color: #9C27B0;
        }
        .toc-item.depth-4 {
            margin-left: 80px;
        }
        .page-number {
            color: #666;
            font-weight: bold;
            margin-right: 10px;
            min-width: 30px;
            display: inline-block;
        }
        .page-title {
            color: #333;
            font-size: 15px;
            font-weight: 500;
        }
        .page-path {
            color: #999;
            font-size: 11px;
            margin-top: 4px;
            font-family: monospace;
        }
        .depth-indicator {
            color: #bbb;
            margin-right: 5px;
            font-size: 12px;
        }
    </style>
</head>
<body>
    <h1>📚 网站目录</h1>
    <p>共 <strong>"
  +:+ pretty total_pages +:+
  "</strong> 个页面</p>
    <hr>
".

Definition toc_tail : string :=
  "</body>
</html>
".

(** [info.get('title', Path(page_path).name)] *)
Definition toc_title (self : SiteToPDF) (page_path : string) : string :=
  match dict_get (page_info self) page_path with
  | Some info => title info
  | None => name (Path_of page_path)
  end.

(** [info.get('relative_path', '')] *)
Definition toc_relative_path (self : SiteToPDF) (page_path : string) : string :=
  match dict_get (page_info self) page_path with
  | Some info => relative_path info
  | None => EmptyString
  end.

(** [info.get('depth', 0)] *)
Definition toc_depth (self : SiteToPDF) (page_path : string) : Z :=
  match dict_get (page_info self) page_path with
  | Some info => depth info
  | None => 0
  end.

(** [min(depth, 4)] *)
Definition toc_display_depth (self : SiteToPDF) (page_path : string) : Z :=
  Z.min (toc_depth self page_path) 4.

(** One entry, as the loop of [generate_toc_html] appends it. *)
Definition toc_item (self : SiteToPDF) (i : nat) (page_path : string) : string :=
  let page_title := toc_title self page_path in
  let page_path_shown := toc_relative_path self page_path in
  let display_depth := toc_display_depth self page_path in
  let indent_symbol :=
    if 0 <? toc_depth self page_path then "└─ " else EmptyString in
  "    <div class=" +:+ dq +:+ "toc-item depth-"
  +:+ pretty display_depth
  +:+ EmptyString +:+ dq +:+ ">
        <span class=" +:+ dq +:+ "page-number" +:+ dq +:+ ">"
  +:+ pretty i
  +:+ ".</span>
        <span class=" +:+ dq +:+ "depth-indicator" +:+ dq +:+ ">"
  +:+ indent_symbol
  +:+ "</span>
        <span class=" +:+ dq +:+ "page-title" +:+ dq +:+ ">"
  +:+ page_title
  +:+ "</span>
        <div class=" +:+ dq +:+ "page-path" +:+ dq +:+ ">"
  +:+ page_path_shown
  +:+ "</div>
    </div>
".

(** [enumerate(page_order, i)] *)
Fixpoint enumerate {A} (i : nat) (l : list A) : list (nat * A) :=
  match l with
  | [] => []
  | x :: l' => (i, x) :: enumerate (S i) l'
  end.

Definition generate_toc_html (self : SiteToPDF) (page_order : list string)
  : string :=
  foldl (λ toc_html ip, toc_html +:+ toc_item self ip.1 ip.2)
    (toc_head (length page_order)) (enumerate 1 page_order)
  +:+ toc_tail.

(** ** A file system in memory

    Regular files listed with their parsed content; the directories are
    the ancestors of the files; no symbolic links. *)

Record Entry := MkEntry {
  e_path : Path;
  e_soup : option Soup;      (* [None]: the file cannot be read *)
  e_size : Z
}.

Definition find_entry (files : list Entry) (p : Path) : option Entry :=
  snd <$> list_find (λ e, e_path e = p) files.

Definition mem_is_file (files : list Entry) (p : Path) : bool :=
  bool_decide (p ∈ e_path <$> files).

(** [p] is a listed file or an ancestor of one. *)
Definition mem_exists (files : list Entry) (p : Path) : bool :=
  existsb (λ e, bool_decide (is_Some (relative_to (e_path e) p))) files.

(** Names are dropped from the right by [..], as [resolve] does where
    nothing is a symbolic link. *)
Definition collapse (ns : list string) : list string :=
  foldl (λ acc n, if decide (n = "..") then removelast acc else acc ++ [n])
    [] ns.

Definition mem_resolve (cwd p : Path) : option Path :=
  let '(a, ns) :=
    match anchor p with
    | Relative => (anchor cwd, names cwd ++ names p)
    | a => (a, names p)
    end in
  Some (MkPath a (collapse (filter valid_name ns))).

(** [fnmatch] for the two patterns in use: a leading star, then text. *)
Definition fnmatch (pat n : string) : bool :=
  match pat with
  | String "*" suffix => Py.endswith n suffix
  | _ => String.eqb pat n
  end.

Definition mem_rglob (files : list Entry) (root : Path) (pat : string)
  : list Path :=
  filter (λ f, wf_path f ∧ below root f ∧ fnmatch pat (name f) = true)
    (e_path <$> files).

Definition mem_world (cwd : Path) (files : list Entry)
    (order : list string → list string) : World :=
  MkWorld (mem_exists files) (mem_is_file files) (mem_resolve cwd)
    (mem_rglob files)
    (λ p, e_size <$> find_entry files p)
    (λ p, e ← find_entry files p; e_soup e)
    order.

(** Two iteration orders a [set] of strings may have. *)
Definition first_seen (l : list string) : list string :=
  reverse (remove_dups (reverse l)).

Definition last_seen_first (l : list string) : list string :=
  reverse (first_seen l).

(** ** Example sites, all under [/site] *)

Definition plain_page (hrefs : list string) : Soup :=
  MkSoup None None hrefs None None.

Definition sidebar_page (hrefs : list string) (anchors : list (option string))
  : Soup :=
  MkSoup (Some "Home") None hrefs (Some anchors) None.

Definition site_file (p : string) (soup : Soup) : Entry :=
  MkEntry (Path_of p) (Some soup) 100.

Definition root_dir : Path := Path_of "/".

(** [index.html] links to [a.html] and [b.html], [a.html] to [c.html]. *)
Definition abc_files : list Entry :=
  [ site_file "/site/index.html" (plain_page ["a.html"; "b.html"]);
    site_file "/site/a.html" (plain_page ["c.html"]);
    site_file "/site/b.html" (plain_page []);
    site_file "/site/c.html" (plain_page []) ].

Definition abc_world : World := mem_world root_dir abc_files first_seen.
Definition abc_world_rev : World := mem_world root_dir abc_files last_seen_first.

(** [index.html] carries a sidebar that lists [b.html], then [a.html]. *)
Definition nav_files : list Entry :=
  [ site_file "/site/index.html"
      (sidebar_page ["a.html"] [Some "b.html"; Some "a.html"]);
    site_file "/site/a.html" (plain_page []);
    site_file "/site/b.html" (plain_page []);
    site_file "/site/c.html" (plain_page []) ].

Definition nav_world : World := mem_world root_dir nav_files first_seen.

(** [index.html] carries a sidebar without entries and links to [b.html],
    then [a.html]. *)
Definition empty_nav_files : list Entry :=
  [ site_file "/site/index.html" (sidebar_page ["b.html"; "a.html"] []);
    site_file "/site/a.html" (plain_page []);
    site_file "/site/b.html" (plain_page []) ].

Definition empty_nav_world : World :=
  mem_world root_dir empty_nav_files first_seen.

(** [index.html] links to the error page [404.html], which the indexer
    excludes, and to [gone.html], which does not exist. *)
Definition err_files : list Entry :=
  [ site_file "/site/index.html" (plain_page ["404.html"; "gone.html#top"]);
    site_file "/site/404.html" (plain_page []) ].

Definition err_world : World := mem_world root_dir err_files first_seen.

(** [about.html] exists at the root and below [docs]. *)
Definition docs_files : list Entry :=
  [ site_file "/site/index.html" (plain_page ["docs/page.html"]);
    site_file "/site/about.html" (plain_page []);
    site_file "/site/docs/page.html" (plain_page ["/about.html"]);
    site_file "/site/docs/about.html" (plain_page []) ].

Definition docs_world : World := mem_world root_dir docs_files first_seen.

(** No canonical index name at the root; [a.html] cannot be read. *)
Definition guide_files : list Entry :=
  [ site_file "/site/guide/intro/index.html" (plain_page []);
    MkEntry (Path_of "/site/a.html") None 7;
    site_file "/site/guide/index.html" (plain_page []);
    site_file "/site/other/index.html" (plain_page []) ].

Definition guide_world : World := mem_world root_dir guide_files first_seen.

(** Neither a canonical index name nor a name with [index] in it. *)
Definition flat_files : list Entry :=
  [ site_file "/site/deep/x.html" (plain_page []);
    site_file "/site/p.html" (plain_page ["q.html"]);
    site_file "/site/q.html" (plain_page []) ].

Definition flat_world : World := mem_world root_dir flat_files first_seen.

(** Two index files in directories of three letters each, one of them
    outside ASCII. *)
Definition unicode_files : list Entry :=
  [ site_file "/site/abc/index.html" (plain_page []);
    site_file "/site/目录/index.html" (plain_page []) ].

Definition unicode_world : World :=
  mem_world root_dir unicode_files first_seen.

(** The state after indexing [/site] in world [w] under the cap [cap]. *)
Definition site (w : World) (cap : option Z) : SiteToPDF :=
  match indexed w "/site" cap with
  | Some self => self
  | None => MkSiteToPDF (Path_of "/site") cap [] [] ∅
  end.

(** The list [build_page_tree] returns, [[]] when it does not return. *)
Definition pages_of (r : Outcome Built) : list string :=
  match r with Done b => ordered b | _ => [] end.

(** ** Vocabulary of the properties *)

(** The state as the indexer leaves it: a normalised root, discovered
    files that are normalised and strictly below it, and no registry key
    other than a discovered file. *)
Definition state_ok (self : SiteToPDF) : Prop :=
  wf_path (httrack_dir self) ∧
  Forall (λ f, wf_path f ∧ below (httrack_dir self) f) (html_files self) ∧
  ∀ k, k ∈ keys (page_info self) → k ∈ str <$> html_files self.

(** The path named by [s] exists. *)
Definition on_disk (w : World) (s : string) : Prop :=
  exists_ w (Path_of s) = true.

(** [x] is the first element of [l] with the least [key]. *)
Definition first_min {A} (key : A → nat) (l : list A) (x : A) : Prop :=
  ∃ l1 l2, l = l1 ++ x :: l2
    ∧ (∀ y, y ∈ l1 → (key x < key y)%nat)
    ∧ (∀ y, y ∈ l2 → (key x ≤ key y)%nat).

(** The canonical index names that exist directly under the root, in
    the order of [index_names]. *)
Definition canonical_found (w : World) (self : SiteToPDF) : list string :=
  filter (λ n, exists_ w (joinpath (httrack_dir self) n) = true) index_names.

(** The number of path segments of [x] relative to [root]. *)
Definition rel_segments (root x : Path) : nat :=
  from_option (λ rel, length (parts rel)) 0%nat (relative_to x root).

(** The elements of [l] that are not in [seen], each once, in the order
    of [l]. *)
Fixpoint missing_from (seen l : list string) : list string :=
  match l with
  | [] => []
  | k :: l' =>
      if bool_decide (k ∈ seen) then missing_from seen l'
      else k :: missing_from (seen ++ [k]) l'
  end.

(** The navigation container of the page named [start], if it can be
    read and has one. *)
Definition nav_container (w : World) (start : string)
  : option (list (option string)) :=
  read_soup w (Path_of start) ≫= find_sidebar.

(** What the registry pages outside [visited] can still add to the
    queue, plus one for each of them: the traversal's measure. *)
Definition unvisited_weight (d : list (string * PageRecord))
    (visited : gset string) : nat :=
  sum_list ((λ kr, if bool_decide (kr.1 ∈ visited) then 0%nat
                   else S (length (links kr.2))) <$> d).

(** What one run of the loop keeps: the pages already ordered stay in
    front, no page comes twice, the visited set is the ordered list,
    every new page is on disk, and a positive cap is not exceeded. *)
Definition loop_post (w : World) (self : SiteToPDF)
    (ordered_pages : list string) (out : gset string * list string) : Prop :=
  ordered_pages `prefix_of` out.2
  ∧ NoDup out.2
  ∧ (∀ x, x ∈ out.1 ↔ x ∈ out.2)
  ∧ (∀ x, x ∈ out.2 → x ∈ ordered_pages ∨ on_disk w x)
  ∧ (∀ N, max_pages self = Some N → 0 < N →
       Z.of_nat (length ordered_pages) ≤ N → Z.of_nat (length out.2) ≤ N).

(* ==================================================================== *)
(** * Properties *)

Example run_abc :
  pages_of (build_page_tree abc_world (site abc_world None))
  = ["/site/index.html"; "/site/a.html"; "/site/b.html"; "/site/c.html"].
Proof. vm_compute. reflexivity. Qed.

Example run_abc_rev :
  pages_of (build_page_tree abc_world_rev (site abc_world_rev None))
  = ["/site/index.html"; "/site/b.html"; "/site/a.html"; "/site/c.html"].
Proof. vm_compute. reflexivity. Qed.

Example run_nav :
  build_page_tree nav_world (site nav_world (Some 1))
  = Done (MkBuilt
      ["/site/index.html"; "/site/b.html"; "/site/a.html"; "/site/c.html"]
      [UsingSidebarOrder 3; TreeBuilt 4] (site nav_world (Some 1))).
Proof. vm_compute. reflexivity. Qed.

Example run_empty_nav :
  pages_of (build_page_tree empty_nav_world (site empty_nav_world None))
  = ["/site/index.html"; "/site/a.html"; "/site/b.html"].
Proof. vm_compute. reflexivity. Qed.

Example run_err :
  pages_of (build_page_tree err_world (site err_world None))
  = ["/site/index.html"; "/site/404.html"]
  ∧ keys (page_info (site err_world None)) = ["/site/index.html"].
Proof. vm_compute. split; reflexivity. Qed.

Example run_guide :
  find_start_page guide_world (site guide_world None)
  = Done (Some "/site/guide/index.html")
  ∧ keys (page_info (site guide_world None))
    = ["/site/guide/intro/index.html"; "/site/guide/index.html";
       "/site/other/index.html"].
Proof. vm_compute. split; reflexivity. Qed.

Example run_flat :
  find_start_page flat_world (site flat_world None) = Done (Some "/site/p.html").
Proof. vm_compute. reflexivity. Qed.

Example lstrip_dot_slash :
  Py.lstrip "./guide/a.html" "./" = "guide/a.html".
Proof. reflexivity. Qed.

Example split_examples :
  Py.split "/"%char "a//b/" = ["a"; EmptyString; "b"; EmptyString] ∧ Py.split "#"%char EmptyString = [EmptyString] ∧
  Py.split_head "#"%char "a.html#top" = "a.html".
Proof. repeat split; reflexivity. Qed.

Example unquote_example : Py.unquote "my%20page%2ehtml%zz" = "my page.html%zz".
Proof. reflexivity. Qed.

Example endswith_examples :
  Py.endswith "docs/" "/" = true ∧ Py.endswith "a.htm" ".html" = false ∧
  Py.endswith_any "a.htm" [".html"; ".htm"] = true.
Proof. repeat split; reflexivity. Qed.

Example contains_examples :
  Py.contains (Py.lower "My-INDEX.html") "index" = true ∧
  Py.contains "/site/a.html" "/404" = false.
Proof. split; reflexivity. Qed.

(** ** Strings *)

Lemma ascii_eqb_spec (a b : ascii) : Ascii.eqb a b = bool_decide (a = b).
Proof.
  destruct (Ascii.eqb_spec a b); symmetry.
  - by apply bool_decide_eq_true.
  - by apply bool_decide_eq_false.
Qed.

Lemma mem_char_app c s t :
  Py.mem_char c (s +:+ t) = Py.mem_char c s || Py.mem_char c t.
Proof.
  induction s as [|a s IH]; simpl; [done|].
  destruct (Ascii.eqb c a); [done|apply IH].
Qed.

Lemma count_app c s t :
  Py.count c (s +:+ t) = (Py.count c s + Py.count c t)%nat.
Proof. induction s as [|a s IH]; simpl; [done|]. rewrite IH. lia. Qed.

Lemma count_absent c s : Py.mem_char c s = false → Py.count c s = 0%nat.
Proof.
  induction s as [|a s IH]; simpl; [done|].
  rewrite (ascii_eqb_spec c a), (ascii_eqb_spec a c).
  repeat case_bool_decide; naive_solver.
Qed.

Lemma split_not_nil c s : Py.split c s ≠ [].
Proof.
  destruct s as [|a s]; simpl; [done|].
  destruct (Ascii.eqb a c); [done|]. by destruct (Py.split c s).
Qed.

Lemma mem_char_cons c a s :
  Py.mem_char c (String a s) = bool_decide (c = a) || Py.mem_char c s.
Proof. simpl. rewrite ascii_eqb_spec. by case_bool_decide. Qed.

(** No piece of [s.split(c)] contains [c]. *)
Lemma split_pieces c s x : x ∈ Py.split c s → Py.mem_char c x = false.
Proof.
  revert x. induction s as [|a s IH]; simpl; intros x Hx.
  - apply list_elem_of_singleton in Hx. by subst.
  - destruct (Ascii.eqb a c) eqn:Hac.
    + apply elem_of_cons in Hx as [->|Hx]; [done|by apply IH].
    + rewrite ascii_eqb_spec in Hac. apply bool_decide_eq_false in Hac.
      assert (Hca : bool_decide (c = a) = false)
        by (apply bool_decide_eq_false; congruence).
      destruct (Py.split c s) as [|h t] eqn:Hsp.
      * apply list_elem_of_singleton in Hx. subst.
        by rewrite mem_char_cons, Hca.
      * apply elem_of_cons in Hx as [->|Hx].
        -- rewrite mem_char_cons, Hca. apply IH. by left.
        -- apply IH. by right.
Qed.

Lemma split_absent c s : Py.mem_char c s = false → Py.split c s = [s].
Proof.
  induction s as [|a s IH]; simpl; [done|].
  rewrite (ascii_eqb_spec c a), (ascii_eqb_spec a c).
  repeat case_bool_decide; try naive_solver.
  intros Hs. by rewrite (IH Hs).
Qed.

Lemma split_app_sep c s t :
  Py.mem_char c s = false →
  Py.split c (s +:+ String c t) = s :: Py.split c t.
Proof.
  induction s as [|a s IH]; simpl.
  - intros _. by rewrite Ascii.eqb_refl.
  - rewrite (ascii_eqb_spec c a), (ascii_eqb_spec a c).
    repeat case_bool_decide; try naive_solver.
    intros Hs. by rewrite (IH Hs).
Qed.

(** ** Paths *)

Lemma Path_of_wf s : wf_path (Path_of s).
Proof.
  unfold wf_path, Path_of. simpl. apply Forall_forall. intros x Hx.
  apply list_elem_of_filter in Hx as [Hk Hx].
  split; [done|]. by eapply split_pieces.
Qed.

Lemma split_join ns :
  Forall valid_name ns → ns ≠ [] → Py.split "/" (Py.join "/" ns) = ns.
Proof.
  induction 1 as [|n ns [Hk Hn] Hns IH]; [done|]. intros _.
  destruct ns as [|m ns].
  - simpl. by apply split_absent.
  - change (Py.join "/" (n :: m :: ns))
      with (n +:+ String "/" (Py.join "/" (m :: ns))).
    rewrite split_app_sep by done. f_equal. by apply IH.
Qed.

Lemma filter_kept ns : Forall valid_name ns → filter kept_name ns = ns.
Proof.
  induction 1 as [|n ns [Hk _] _ IH]; [done|].
  rewrite filter_cons_True by done. by f_equal.
Qed.

Lemma join_head_char n ns :
  valid_name n → ∃ c rest, Py.join "/" (n :: ns) = String c rest ∧ c ≠ "/"%char.
Proof.
  intros [[Hne _] Hn]. destruct n as [|c n]; [done|].
  exists c. rewrite mem_char_cons in Hn.
  case_bool_decide; [done|].
  destruct ns; simpl; eauto.
Qed.

(** [Path(str(p)) == p] *)
Lemma Path_of_str p : wf_path p → Path_of (str p) = p.
Proof.
  destruct p as [a ns]. unfold wf_path. simpl. intros Hwf.
  destruct ns as [|n ns].
  { by destruct a. }
  assert (Hn : valid_name n) by (by inversion Hwf).
  destruct (join_head_char n ns Hn) as (c & rest & Hj & Hc).
  assert (Hsp : filter kept_name (Py.split "/" (Py.join "/" (n :: ns)))
                = n :: ns).
  { rewrite split_join by done. by apply filter_kept. }
  unfold Path_of, str. simpl anchor. simpl names.
  assert (Hc' : Ascii.eqb c "/" = false).
  { rewrite ascii_eqb_spec. by apply bool_decide_eq_false. }
  destruct a; simpl anchor_str.
  - f_equal; [|done]. rewrite Hj.
    destruct c as [[] [] [] [] [] [] [] []]; done.
  - f_equal.
    + rewrite Hj. destruct c as [[] [] [] [] [] [] [] []]; done.
    + change (Py.split "/" ("/" +:+ Py.join "/" (n :: ns)))
        with (EmptyString :: Py.split "/" (Py.join "/" (n :: ns))).
      rewrite filter_cons_False; [done|]. by intros [? _].
  - f_equal.
    + rewrite Hj. destruct c as [[] [] [] [] [] [] [] []]; done.
    + change (Py.split "/" ("//" +:+ Py.join "/" (n :: ns)))
        with (EmptyString :: EmptyString
              :: Py.split "/" (Py.join "/" (n :: ns))).
      rewrite !filter_cons_False; [done|by intros [? _]..].
Qed.

Lemma joinpath_wf p s : wf_path p → wf_path (joinpath p s).
Proof.
  intros Hp. unfold joinpath. pose proof (Path_of_wf s) as Hs.
  destruct (anchor (Path_of s)); [|done..].
  unfold wf_path in *. simpl. by apply Forall_app.
Qed.

(** The separators of a relative path are one fewer than its names. *)
Lemma count_join ns :
  Forall valid_name ns → ns ≠ [] →
  Py.count "/" (Py.join "/" ns) = (length ns - 1)%nat.
Proof.
  induction 1 as [|n ns [Hk Hn] Hns IH]; [done|]. intros _.
  destruct ns as [|m ns].
  - simpl. by apply count_absent.
  - change (Py.join "/" (n :: m :: ns))
      with (n +:+ String "/" (Py.join "/" (m :: ns))).
    rewrite count_app, (count_absent _ _ Hn).
    change (Py.count "/" (String "/" (Py.join "/" (m :: ns))))
      with (S (Py.count "/" (Py.join "/" (m :: ns)))).
    rewrite IH by done. simpl. lia.
Qed.

(** ** The in-memory file system is a world *)

Lemma Forall_removelast {A} (P : A → Prop) (l : list A) :
  Forall P l → Forall P (removelast l).
Proof.
  induction 1 as [|x l Hx Hl IH]; [done|]. simpl.
  destruct l; [done|]. by constructor.
Qed.

Lemma collapse_Forall (P : string → Prop) ns :
  Forall P ns → Forall P (collapse ns).
Proof.
  unfold collapse. intros Hns.
  assert (Hgen : ∀ acc, Forall P acc →
    Forall P (foldl (λ acc n, if decide (n = "..") then removelast acc
                              else acc ++ [n]) acc ns)); [|by apply Hgen].
  induction Hns as [|n ns Hn Hns IH]; intros acc Hacc; [done|]. simpl.
  apply IH. case_decide.
  - by apply Forall_removelast.
  - apply Forall_app. split; [done|]. by constructor.
Qed.

Lemma first_seen_ok : set_order_ok first_seen.
Proof.
  intros l. unfold first_seen. split.
  - rewrite reverse_Permutation. apply NoDup_remove_dups.
  - intros x. by rewrite elem_of_reverse, elem_of_remove_dups, elem_of_reverse.
Qed.

Lemma last_seen_first_ok : set_order_ok last_seen_first.
Proof.
  intros l. unfold last_seen_first. destruct (first_seen_ok l) as [Hnd Hin].
  split; [by rewrite reverse_Permutation|].
  intros x. by rewrite elem_of_reverse.
Qed.

Lemma mem_world_ok cwd files order :
  set_order_ok order → world_ok (mem_world cwd files order).
Proof.
  intros Hord. split; [|split; [|done]].
  - intros p q. simpl. unfold mem_resolve.
    destruct (anchor p); intros [= <-];
      apply collapse_Forall, Forall_forall;
      by intros x [? _]%list_elem_of_filter.
  - intros root pat p. simpl. unfold mem_rglob.
    by intros [(? & ? & _) _]%list_elem_of_filter.
Qed.

(** ** The state the indexer leaves *)

Section Indexer.
Variable w : World.

Lemma keys_dict_set {V} (d : list (string * V)) k v x :
  x ∈ keys (dict_set d k v) ↔ x ∈ keys d ∨ x = k.
Proof.
  unfold keys. induction d as [|[k' v'] d IH]; simpl.
  - rewrite list_elem_of_singleton. set_solver.
  - case_decide; simpl; rewrite !elem_of_cons; [|rewrite IH]; naive_solver.
Qed.

Lemma analyze_file_fields self f :
  httrack_dir (analyze_file w self f) = httrack_dir self
  ∧ html_files (analyze_file w self f) = html_files self
  ∧ max_pages (analyze_file w self f) = max_pages self.
Proof. unfold analyze_file. by destruct (page_record w self f). Qed.

Lemma analyze_fold_fields l self :
  httrack_dir (foldl (analyze_file w) self l) = httrack_dir self
  ∧ html_files (foldl (analyze_file w) self l) = html_files self
  ∧ max_pages (foldl (analyze_file w) self l) = max_pages self.
Proof.
  revert self. induction l as [|f l IH]; intros self; [done|]. simpl.
  destruct (IH (analyze_file w self f)) as (-> & -> & ->).
  apply analyze_file_fields.
Qed.

Lemma analyze_fold_keys l self k :
  k ∈ keys (page_info (foldl (analyze_file w) self l)) →
  k ∈ keys (page_info self) ∨ k ∈ str <$> l.
Proof.
  revert self. induction l as [|f l IH]; intros self; simpl; [by left|].
  intros [Hk|Hk]%IH; [|right; by right].
  unfold analyze_file in Hk. destruct (page_record w self f); [|by left].
  simpl in Hk. apply keys_dict_set in Hk as [?| ->]; [by left|].
  right. by left.
Qed.

Lemma indexed_state_ok dir cap self :
  world_ok w → indexed w dir cap = Some self → state_ok self.
Proof.
  intros (Hres & Hglob & _). unfold indexed, new_SiteToPDF.
  destruct (resolve w (Path_of dir)) as [root|] eqn:Hroot; [|done].
  simpl. intros [= <-]. unfold analyze_page_structure.
  set (self0 := find_html_files w _).
  destruct (analyze_fold_fields (html_files self0) self0) as (Hd & Hf & _).
  unfold state_ok. rewrite Hd, Hf. split; [by eapply Hres|]. split.
  - apply Forall_forall. intros f [_ Hf']%list_elem_of_filter.
    apply elem_of_app in Hf' as [Hf'|Hf']; by eapply Hglob.
  - intros k [Hk|Hk]%analyze_fold_keys; [|done].
    by apply elem_of_nil in Hk.
Qed.

End Indexer.

(** ** The traversal *)

Section Traversal.
Variable w : World.
Variable self : SiteToPDF.
Hypothesis Hw : world_ok w.

Lemma resolve_link_on_disk cp l q :
  _resolve_link w self cp l = Some q → on_disk w q.
Proof.
  unfold _resolve_link.
  destruct (negb _); [|done].
  destruct (resolve w _) as [p|] eqn:Hp; [|done].
  destruct (exists_ w p && is_file w p) eqn:Hex; [|done].
  intros [= <-]. unfold on_disk.
  destruct Hw as (Hres & _). rewrite Path_of_str by (by eapply Hres).
  by apply andb_true_iff in Hex as [? _].
Qed.

Lemma truthy_str_Some x s : truthy_str x = Some s → x = Some s.
Proof. destruct x as [t|]; simpl; [|done]. by destruct (Py.truthy t). Qed.

Lemma existing_page_on_disk q q' : existing_page w q = Some q' → on_disk w q'.
Proof.
  unfold existing_page. destruct (exists_ w (Path_of q)) eqn:Hq.
  - by intros [= <-].
  - intros Hr%truthy_str_Some. revert Hr. unfold _resolve_page_path.
    destruct (Py.endswith q "/"); [|done].
    destruct (exists_ w (joinpath _ _)) eqn:Hex; [|done].
    intros [= <-]. unfold on_disk.
    by rewrite Path_of_str by apply joinpath_wf, Path_of_wf.
Qed.

Lemma existing_page_id q : on_disk w q → existing_page w q = Some q.
Proof. unfold on_disk, existing_page. by intros ->. Qed.

Lemma enqueue_link_on_disk cp v queue l :
  Forall (on_disk w) queue → Forall (on_disk w) (enqueue_link w self cp v queue l).
Proof.
  intros Hq. unfold enqueue_link.
  destruct (truthy_str _) as [q|] eqn:Hr; [|done].
  case_bool_decide; [done|].
  apply Forall_app. split; [done|]. constructor; [|done].
  eapply resolve_link_on_disk. by apply truthy_str_Some.
Qed.

Lemma enqueue_link_length cp v queue l :
  (length (enqueue_link w self cp v queue l) ≤ S (length queue))%nat.
Proof.
  unfold enqueue_link. destruct (truthy_str _); [|lia].
  case_bool_decide; [lia|]. rewrite length_app. simpl. lia.
Qed.

Lemma enqueue_links_on_disk cp v queue :
  Forall (on_disk w) queue → Forall (on_disk w) (enqueue_links w self cp v queue).
Proof.
  unfold enqueue_links. destruct (dict_get _ _) as [r|]; [|done].
  revert queue. induction (links r) as [|l ls IH]; intros queue Hq; [done|].
  simpl. by apply IH, enqueue_link_on_disk.
Qed.

Lemma enqueue_links_length cp v queue :
  (length (enqueue_links w self cp v queue)
   ≤ length queue
     + from_option (λ r, length (links r)) 0 (dict_get (page_info self) cp))%nat.
Proof.
  unfold enqueue_links. destruct (dict_get _ _) as [r|]; simpl; [|lia].
  revert queue. induction (links r) as [|l ls IH]; intros queue; simpl; [lia|].
  etrans; [apply IH|]. pose proof (enqueue_link_length cp v queue l). lia.
Qed.

Lemma loop_post_refl visited ordered_pages :
  NoDup ordered_pages → (∀ x, x ∈ visited ↔ x ∈ ordered_pages) →
  loop_post w self ordered_pages (visited, ordered_pages).
Proof. intros. unfold loop_post. simpl. naive_solver. Qed.

Lemma under_cap_room ordered_pages N :
  under_cap self ordered_pages = true → max_pages self = Some N → 0 < N →
  Z.of_nat (length ordered_pages) < N.
Proof. unfold under_cap. intros Hc HN ?. rewrite HN in Hc. lia. Qed.

Lemma bfs_loop_post fuel queue visited ordered_pages out :
  Forall (on_disk w) queue →
  NoDup ordered_pages → (∀ x, x ∈ visited ↔ x ∈ ordered_pages) →
  bfs_loop w fuel self queue visited ordered_pages = Some out →
  loop_post w self ordered_pages out.
Proof.
  revert queue visited ordered_pages.
  induction fuel as [|fuel IH]; intros queue visited ordered_pages Hq Hnd Hv;
    destruct queue as [|q queue]; simpl.
  1, 3: intros [= <-]; by apply loop_post_refl.
  - destruct (under_cap self ordered_pages); [done|].
    intros [= <-]. by apply loop_post_refl.
  - apply Forall_cons in Hq as [Hq Hqs].
    destruct (under_cap self ordered_pages) eqn:Hcap;
      [|intros [= <-]; by apply loop_post_refl].
    case_bool_decide as Hvis; [by apply IH|].
    rewrite (existing_page_id q Hq).
    intros Hrun. apply IH in Hrun.
    + destruct Hrun as (Hpre & Hnd' & Hv' & Hdisk & Hlen).
      split; [by eapply prefix_app_l|]. split; [done|]. split; [done|]. split.
      * intros x [Hx|Hx]%Hdisk; [|by right].
        apply elem_of_app in Hx as [Hx|Hx]; [by left|].
        apply list_elem_of_singleton in Hx as ->. by right.
      * intros N HN Hpos Hle. apply (Hlen N HN Hpos).
        pose proof (under_cap_room _ _ Hcap HN Hpos).
        rewrite length_app. simpl. lia.
    + by apply enqueue_links_on_disk.
    + apply NoDup_app. split; [done|]. split; [|apply NoDup_singleton].
      intros x Hx ->%list_elem_of_singleton. by apply Hvis, Hv.
    + intros x. rewrite elem_of_union, elem_of_singleton, elem_of_app,
        list_elem_of_singleton, Hv. naive_solver.
Qed.

(** *** The fuel suffices *)

Lemma unvisited_weight_mono d (v v' : gset string) :
  v ⊆ v' → (unvisited_weight d v' ≤ unvisited_weight d v)%nat.
Proof.
  intros Hsub. unfold unvisited_weight.
  induction d as [|[k r] d IH]; csimpl; [lia|].
  repeat case_bool_decide; try lia; set_solver.
Qed.

Lemma unvisited_weight_visit d (v : gset string) q r :
  dict_get d q = Some r → q ∉ v →
  (unvisited_weight d ({[q]} ∪ v) + S (length (links r))
   ≤ unvisited_weight d v)%nat.
Proof.
  intros Hget Hq. unfold unvisited_weight.
  induction d as [|[k r'] d IH]; csimpl in *; [done|].
  case_decide as Hk.
  - injection Hget as ->. subst k.
    rewrite bool_decide_eq_true_2 by set_solver.
    rewrite (bool_decide_eq_false_2 (q ∈ v)) by done.
    pose proof (unvisited_weight_mono d v ({[q]} ∪ v)) as Hm.
    unfold unvisited_weight in Hm. specialize (Hm ltac:(set_solver)). lia.
  - specialize (IH Hget).
    rewrite (bool_decide_ext (k ∈ {[q]} ∪ v) (k ∈ v)) by set_solver.
    case_bool_decide; lia.
Qed.

Lemma bfs_loop_fuel fuel queue visited ordered_pages :
  Forall (on_disk w) queue →
  (length queue + unvisited_weight (page_info self) visited < fuel)%nat →
  is_Some (bfs_loop w fuel self queue visited ordered_pages).
Proof.
  revert queue visited ordered_pages.
  induction fuel as [|fuel IH]; intros queue visited ordered_pages Hq Hlt;
    [lia|].
  destruct queue as [|q queue]; simpl; [done|].
  destruct (under_cap self ordered_pages); [|done].
  apply Forall_cons in Hq as [Hq Hqs]. simpl in Hlt.
  case_bool_decide as Hvis; [apply IH; [done|lia]|].
  rewrite (existing_page_id q Hq).
  apply IH; [by apply enqueue_links_on_disk|].
  pose proof (enqueue_links_length q ({[q]} ∪ visited) queue) as Hlen.
  destruct (dict_get (page_info self) q) as [r|] eqn:Hget; simpl in Hlen.
  - pose proof (unvisited_weight_visit _ _ _ _ Hget Hvis). lia.
  - pose proof (unvisited_weight_mono (page_info self) visited
                  ({[q]} ∪ visited) ltac:(set_solver)). lia.
Qed.

Lemma bfs_fuel_weight :
  bfs_fuel self = (2 + unvisited_weight (page_info self) ∅)%nat.
Proof.
  unfold bfs_fuel, unvisited_weight. reflexivity.
Qed.

Lemma bfs_loop_cons fuel q queue visited ordered_pages :
  bfs_loop w (S fuel) self (q :: queue) visited ordered_pages
  = if under_cap self ordered_pages then
      if bool_decide (q ∈ visited)
      then bfs_loop w fuel self queue visited ordered_pages
      else match existing_page w q with
           | None => bfs_loop w fuel self queue visited ordered_pages
           | Some cp =>
               bfs_loop w fuel self
                 (enqueue_links w self cp ({[cp]} ∪ visited) queue)
                 ({[cp]} ∪ visited) (ordered_pages ++ [cp])
           end
    else Some (visited, ordered_pages).
Proof. reflexivity. Qed.

(** The loop, started as [build_page_tree] starts it, comes to an end and
    keeps [loop_post]; the start page need not exist. *)
Lemma bfs_loop_start start :
  ∃ out, bfs_loop w (bfs_fuel self) self [start] ∅ [] = Some out
         ∧ loop_post w self [] out.
Proof.
  rewrite bfs_fuel_weight.
  change (2 + ?n)%nat with (S (S n)). rewrite bfs_loop_cons.
  assert (Hnil : loop_post w self [] (∅, [])).
  { apply loop_post_refl; [constructor|set_solver]. }
  destruct (under_cap self []) eqn:Hcap; [|by eexists].
  rewrite bool_decide_eq_false_2 by set_solver.
  destruct (existing_page w start) as [cp|] eqn:Hcp; [|by eexists].
  pose proof (existing_page_on_disk _ _ Hcp) as Hdisk.
  assert (Hq : Forall (on_disk w) (enqueue_links w self cp ({[cp]} ∪ ∅) [])).
  { by apply enqueue_links_on_disk. }
  destruct (bfs_loop_fuel (S (unvisited_weight (page_info self) ∅))
              (enqueue_links w self cp ({[cp]} ∪ ∅) []) ({[cp]} ∪ ∅) [cp] Hq)
    as [out Hout].
  { pose proof (enqueue_links_length cp ({[cp]} ∪ ∅) []) as Hlen.
    destruct (dict_get (page_info self) cp) as [r|] eqn:Hget; simpl in Hlen.
    - pose proof (unvisited_weight_visit _ ∅ _ _ Hget ltac:(set_solver)). lia.
    - pose proof (unvisited_weight_mono (page_info self) ∅
                    ({[cp]} ∪ ∅) ltac:(set_solver)). lia. }
  exists out. split; [done|].
  apply bfs_loop_post in Hout; [|done|apply NoDup_singleton|set_solver].
  destruct Hout as (Hpre & Hnd & Hv & Hd & Hlen).
  split; [apply prefix_nil|]. split; [done|]. split; [done|]. split.
  - intros x [Hx|Hx]%Hd; [|by right].
    apply list_elem_of_singleton in Hx as ->. by right.
  - intros N HN Hpos _. apply (Hlen N HN Hpos).
    pose proof (under_cap_room _ _ Hcap HN Hpos). simpl in *. lia.
Qed.

End Traversal.

(** ** Appending the registry pages that are still missing *)

Lemma missing_from_NoDup seen l :
  NoDup seen → NoDup (seen ++ missing_from seen l).
Proof.
  revert seen. induction l as [|k l IH]; intros seen Hnd; simpl.
  - by rewrite app_nil_r.
  - case_bool_decide as Hk; [by apply IH|].
    rewrite cons_middle, app_assoc. apply IH.
    apply NoDup_app. split; [done|]. split; [|apply NoDup_singleton].
    by intros x Hx ->%list_elem_of_singleton.
Qed.

Lemma missing_from_covers seen l k :
  k ∈ l → k ∈ seen ++ missing_from seen l.
Proof.
  revert seen. induction l as [|x l IH]; intros seen Hk; [by inversion Hk|].
  simpl. apply elem_of_cons in Hk as [->|Hk].
  - case_bool_decide; [apply elem_of_app; by left|].
    apply elem_of_app. right. by left.
  - case_bool_decide; [by apply IH|].
    rewrite cons_middle, app_assoc. by apply IH.
Qed.

Lemma missing_from_subset seen l k : k ∈ missing_from seen l → k ∈ l.
Proof.
  revert seen. induction l as [|x l IH]; intros seen; simpl; [done|].
  case_bool_decide.
  - intros ?%IH. by right.
  - intros [->|?%IH]%elem_of_cons; [by left|by right].
Qed.

(** The loop after the sidebar order appends exactly the missing keys. *)
Lemma append_missing_fold ordered_pages ks :
  foldl append_missing ordered_pages ks
  = ordered_pages ++ missing_from ordered_pages ks.
Proof.
  revert ordered_pages. induction ks as [|k ks IH]; intros o; simpl.
  - by rewrite app_nil_r.
  - unfold append_missing at 2. case_bool_decide; [apply IH|].
    by rewrite IH, <- app_assoc.
Qed.

Section Append.
Variable self : SiteToPDF.

Lemma append_unvisited_prefix o ks :
  o `prefix_of` foldl (append_unvisited self) o ks.
Proof.
  revert o. induction ks as [|k ks IH]; intros o; simpl; [done|].
  unfold append_unvisited at 2. case_bool_decide; [apply IH|].
  destruct (under_cap self o); [|apply IH].
  eapply prefix_app_l, IH.
Qed.

Lemma append_unvisited_NoDup o ks :
  NoDup o → NoDup (foldl (append_unvisited self) o ks).
Proof.
  revert o. induction ks as [|k ks IH]; intros o Hnd; simpl; [done|].
  apply IH. unfold append_unvisited. case_bool_decide; [done|].
  destruct (under_cap self o); [|done].
  apply NoDup_app. split; [done|]. split; [|apply NoDup_singleton].
  by intros x Hx ->%list_elem_of_singleton.
Qed.

Lemma append_unvisited_elem o ks x :
  x ∈ foldl (append_unvisited self) o ks → x ∈ o ∨ x ∈ ks.
Proof.
  revert o. induction ks as [|k ks IH]; intros o; simpl; [by left|].
  intros [Hx|Hx]%IH; [|right; by right].
  unfold append_unvisited in Hx. case_bool_decide; [by left|].
  destruct (under_cap self o); [|by left].
  apply elem_of_app in Hx as [Hx|Hx]; [by left|].
  apply list_elem_of_singleton in Hx as ->. right. by left.
Qed.

Lemma append_unvisited_cap o ks N :
  max_pages self = Some N → 0 < N →
  Z.of_nat (length o) ≤ N →
  Z.of_nat (length (foldl (append_unvisited self) o ks)) ≤ N.
Proof.
  intros HN Hpos. revert o.
  induction ks as [|k ks IH]; intros o Hle; simpl; [done|].
  apply IH. unfold append_unvisited. case_bool_decide; [done|].
  destruct (under_cap self o) eqn:Hcap; [|done].
  unfold under_cap in Hcap. rewrite HN in Hcap.
  rewrite length_app. simpl. lia.
Qed.

(** Without a cap the loop after the traversal is the loop after the
    sidebar order. *)
Lemma append_unvisited_uncapped o ks :
  (∀ l, under_cap self l = true) →
  foldl (append_unvisited self) o ks = foldl append_missing o ks.
Proof.
  intros Hcap. revert o. induction ks as [|k ks IH]; intros o; simpl; [done|].
  rewrite <- IH. f_equal. unfold append_unvisited, append_missing.
  by rewrite Hcap.
Qed.

End Append.

(** ** The sidebar order *)

Section Sidebar.
Variable w : World.
Variable self : SiteToPDF.

(** The start page, then each resolved target once, in document order. *)
Lemma sidebar_fold start acc anchors :
  foldl (sidebar_step w self start) acc anchors
  = acc ++ missing_from acc (omap (nav_target w self start) anchors).
Proof.
  revert acc. induction anchors as [|a anchors IH]; intros acc; simpl.
  - by rewrite app_nil_r.
  - unfold sidebar_step at 2.
    destruct (nav_target w self start a) as [q|]; simpl; [|apply IH].
    case_bool_decide; [apply IH|]. by rewrite IH, <- app_assoc.
Qed.

Lemma extract_sidebar_order_container start anchors :
  nav_container w start = Some anchors →
  _extract_sidebar_order w self start
  = start :: missing_from [start] (omap (nav_target w self start) anchors).
Proof.
  unfold nav_container, _extract_sidebar_order.
  destruct (read_soup w (Path_of start)) as [soup|]; simpl; [|done].
  intros ->. by rewrite sidebar_fold.
Qed.

Lemma extract_sidebar_order_none start :
  nav_container w start = None → _extract_sidebar_order w self start = [].
Proof.
  unfold nav_container, _extract_sidebar_order.
  destruct (read_soup w (Path_of start)) as [soup|]; simpl; [|done].
  by intros ->.
Qed.

End Sidebar.

(** ** Choosing the start page *)

Lemma list_find_filter_head {A} (P : A → Prop) `{!∀ x, Decision (P x)}
    (l : list A) :
  snd <$> list_find P l = head (filter P l).
Proof.
  induction l as [|x l IH]; [done|]. simpl.
  rewrite filter_cons. case_decide; [done|].
  rewrite <- IH. by destruct (list_find P l) as [[i y]|].
Qed.

Lemma first_min_singleton {A} (key : A → nat) x : first_min key [x] x.
Proof. exists [], []. split; [done|]. split; intros y Hy; by inversion Hy. Qed.

(** [min] returns the first element with the least key. *)
Lemma min_by_first_min {A} (key : A → nat) pre best l :
  first_min key pre best → first_min key (pre ++ l) (min_by key best l).
Proof.
  revert pre best. induction l as [|x l IH]; intros pre best Hbest; simpl.
  - by rewrite app_nil_r.
  - rewrite cons_middle, app_assoc. apply IH.
    destruct Hbest as (l1 & l2 & -> & H1 & H2).
    destruct (Nat.ltb_spec (key x) (key best)) as [Hlt|Hge].
    + exists (l1 ++ best :: l2), []. split; [done|]. split.
      * intros y [Hy|Hy]%elem_of_app.
        -- specialize (H1 y Hy). lia.
        -- apply elem_of_cons in Hy as [->|Hy]; [done|].
           specialize (H2 y Hy). lia.
      * intros y Hy. by inversion Hy.
    + exists l1, (l2 ++ [x]). split; [by rewrite <- app_assoc|]. split; [done|].
      intros y [Hy|Hy]%elem_of_app; [by apply H2|].
      by apply list_elem_of_singleton in Hy as ->.
Qed.

(** The head of a stably sorted list is the first element with the
    least key. *)
Lemma sorted_by_head {A} (key : A → nat) (l : list A) :
  l ≠ [] → ∃ x rest, sorted_by key l = x :: rest ∧ first_min key l x.
Proof.
  induction l as [|a l IH]; [done|]. intros _.
  destruct l as [|b l].
  { exists a, []. split; [done|]. apply first_min_singleton. }
  destruct IH as (x & rest & Hs & l1 & l2 & Hl & H1 & H2); [done|].
  change (sorted_by key (a :: b :: l))
    with (insert_by key a (sorted_by key (b :: l))).
  rewrite Hs. simpl. destruct (Nat.ltb_spec (key x) (key a)) as [Hlt|Hge].
  - eexists x, _. split; [done|].
    exists (a :: l1), l2. rewrite Hl. split; [done|]. split; [|done].
    intros y [->|Hy]%elem_of_cons; [done|by apply H1].
  - eexists a, _. split; [done|].
    exists [], (b :: l). split; [done|]. split; [intros y Hy; by inversion Hy|].
    intros y Hy. rewrite Hl in Hy.
    apply elem_of_app in Hy as [Hy|Hy].
    + specialize (H1 y Hy). lia.
    + apply elem_of_cons in Hy as [->|Hy]; [done|]. specialize (H2 y Hy). lia.
Qed.

Lemma first_min_fmap {A B} (g : A → B) (key : B → nat) (l : list A) y :
  first_min key (g <$> l) y → ∃ x, y = g x ∧ first_min (key ∘ g) l x.
Proof.
  intros (k1 & k2 & Hl & H1 & H2).
  apply fmap_app_inv in Hl as (l1 & l2' & -> & Hk2 & ->).
  symmetry in Hk2. apply fmap_cons_inv in Hk2 as (x & l2 & -> & -> & ->).
  exists x. split; [done|]. exists l1, l2. split; [done|]. split.
  - intros z Hz. apply H1, list_elem_of_fmap. eauto.
  - intros z Hz. apply H2, list_elem_of_fmap. eauto.
Qed.

Lemma mapM_total {A B} (f : A → option B) (g : A → B) (l : list A) :
  Forall (λ x, f x = Some (g x)) l → mapM f l = Some (g <$> l).
Proof.
  induction 1 as [|x l Hx Hl IH]; [done|]. simpl. by rewrite Hx, IH.
Qed.

Lemma append_empty s t :
  s +:+ t = EmptyString → s = EmptyString ∧ t = EmptyString.
Proof. by destruct s. Qed.

Lemma join_nonempty sep l x :
  x ∈ l → x ≠ EmptyString → Py.join sep l ≠ EmptyString.
Proof.
  induction l as [|y l IH]; [by inversion 1|].
  intros Hx Hne. destruct l as [|z l].
  - apply list_elem_of_singleton in Hx as ->. done.
  - change (Py.join sep (y :: z :: l))
      with (y +:+ sep +:+ Py.join sep (z :: l)).
    intros [-> [_ Hj]%append_empty]%append_empty.
    apply elem_of_cons in Hx as [->|Hx]; [done|]. by apply IH.
Qed.

Lemma str_nonempty p x :
  x ∈ names p → x ≠ EmptyString → str p ≠ EmptyString.
Proof.
  intros Hx Hne. pose proof (join_nonempty "/" _ _ Hx Hne) as Hj.
  unfold str. destruct (names p) as [|n ns]; [by inversion Hx|].
  destruct (anchor p); simpl; [done|done..].
Qed.

Lemma str_inj p q : wf_path p → wf_path q → str p = str q → p = q.
Proof.
  intros Hp Hq Heq. by rewrite <- (Path_of_str p), <- (Path_of_str q), Heq.
Qed.

Lemma strip_prefix_app pre l rest :
  strip_prefix pre l = Some rest → l = pre ++ rest.
Proof.
  revert l. induction pre as [|x pre IH]; intros [|y l]; simpl; try done.
  - by intros [= ->].
  - by intros [= ->].
  - case_decide; [|done]. subst. intros ?%IH. by f_equal.
Qed.

Lemma relative_to_names p root rel :
  relative_to p root = Some rel →
  anchor rel = Relative ∧ names p = names root ++ names rel.
Proof.
  unfold relative_to. case_decide; [|done].
  destruct (strip_prefix _ _) as [ns|] eqn:Hs; [|done].
  intros [= <-]. split; [done|]. by apply strip_prefix_app.
Qed.

(** A discovered file has a name, so its path string is not empty. *)
Lemma below_str_nonempty root f :
  wf_path f → below root f → str f ≠ EmptyString.
Proof.
  intros Hwf Hb. unfold below in Hb.
  destruct (relative_to f root) as [rel|] eqn:Hrel; [|done].
  apply relative_to_names in Hrel as [_ Hn].
  destruct (names rel) as [|n ns] eqn:Hr; [done|].
  assert (Hin : n ∈ names f) by (rewrite Hn; set_solver).
  apply (str_nonempty f n Hin).
  unfold wf_path in Hwf. rewrite Forall_forall in Hwf.
  by destruct (Hwf n Hin) as [[? _] _].
Qed.

Lemma index_name_str_nonempty root n :
  n ∈ index_names → str (joinpath root n) ≠ EmptyString.
Proof.
  intros Hn. unfold index_names in Hn.
  assert (Hj : joinpath root n = MkPath (anchor root) (names root ++ [n])).
  { repeat (apply elem_of_cons in Hn as [->|Hn]; [done|]). by inversion Hn. }
  rewrite Hj. apply (str_nonempty _ n); [simpl; set_solver|].
  repeat (apply elem_of_cons in Hn as [->|Hn]; [done|]). by inversion Hn.
Qed.

Section StartPage.
Variable w : World.
Variable self : SiteToPDF.

(** [find_start_page], tier by tier. *)
Lemma find_start_page_spec :
  Forall (below (httrack_dir self)) (html_files self) →
  let root := httrack_dir self in
  let index_files := filter is_index_file (html_files self) in
  (∀ n rest, canonical_found w self = n :: rest →
     find_start_page w self = Done (Some (str (joinpath root n))))
  ∧ (canonical_found w self = [] → index_files ≠ [] →
     ∃ f, find_start_page w self = Done (Some (str f))
          ∧ first_min (λ x, Py.len (str x)) index_files f)
  ∧ (canonical_found w self = [] → index_files = [] → html_files self ≠ [] →
     ∃ f, find_start_page w self = Done (Some (str f))
          ∧ first_min (rel_segments root) (html_files self) f)
  ∧ (find_start_page w self = Done None
     ↔ canonical_found w self = [] ∧ html_files self = []).
Proof.
  intros Hbelow root index_files.
  pose proof (list_find_filter_head
    (λ n, exists_ w (joinpath (httrack_dir self) n) = true) index_names)
    as Hfind.
  fold (canonical_found w self) in Hfind. unfold find_start_page.
  destruct (list_find _ index_names) as [[i n]|]; simpl in Hfind.
  { destruct (canonical_found w self) as [|n' rest] eqn:Hc; [done|].
    injection Hfind as ->. repeat split; try done.
    - by intros ?? [= -> ->].
    - by intros [? _]. }
  destruct (canonical_found w self) as [|n' rest] eqn:Hc; [clear Hfind|done].
  split; [done|]. fold index_files.
  destruct index_files as [|f rest] eqn:Hidx.
  - split; [done|].
    destruct (html_files self) as [|f0 fs] eqn:Hfiles; [by repeat split|].
    rewrite <- Hfiles in *.
    rewrite (mapM_total _ (λ x, (rel_segments root x, x))).
    2: { eapply Forall_impl; [exact Hbelow|]. intros x Hx.
         unfold below in Hx. unfold depth_key, rel_segments, root.
         by destruct (relative_to x (httrack_dir self)). }
    destruct (sorted_by_head fst ((λ x, (rel_segments root x, x))
                                    <$> html_files self))
      as ([k f] & rest & Hs & Hmin); [by rewrite Hfiles, fmap_cons|].
    rewrite Hs. apply first_min_fmap in Hmin as (x & [= -> ->] & Hmin).
    split; [intros _ _ _; by exists x|].
    split; [done|]. intros [_ ?]. congruence.
  - split; [|split; [done|]].
    + intros _ _. eexists. split; [done|].
      apply (min_by_first_min _ [f] f rest), first_min_singleton.
    + split; [done|]. intros [_ Hnil]. unfold index_files in Hidx.
      by rewrite Hnil in Hidx.
Qed.

(** It returns, and what it returns is not the empty string. *)
Lemma find_start_page_returns :
  state_ok self →
  (find_start_page w self = Done None ∧ html_files self = [])
  ∨ ∃ start, find_start_page w self = Done (Some start)
             ∧ start ≠ EmptyString.
Proof.
  intros (Hroot & Hfiles & _).
  assert (Hbelow : Forall (below (httrack_dir self)) (html_files self)).
  { eapply Forall_impl; [exact Hfiles|]. by intros f [_ ?]. }
  destruct (find_start_page_spec Hbelow) as (H1 & H2 & H3 & H4).
  rewrite Forall_forall in Hfiles.
  destruct (canonical_found w self) as [|n rest] eqn:Hc.
  - destruct (filter is_index_file (html_files self)) as [|f fs] eqn:Hidx.
    + destruct (html_files self) as [|f0 fs0] eqn:Hf.
      * left. split; [by apply H4|done].
      * right. destruct H3 as (f & -> & l1 & l2 & Hl & _); [done..|].
        eexists. split; [done|].
        destruct (Hfiles f) as [Hwf Hb]; [rewrite Hl; set_solver|].
        by eapply below_str_nonempty.
    + right. destruct H2 as (g & -> & l1 & l2 & Hl & _); [done..|].
      eexists. split; [done|].
      assert (Hg : g ∈ html_files self).
      { eapply (list_elem_of_filter is_index_file). rewrite Hidx, Hl.
        set_solver. }
      destruct (Hfiles g Hg) as [Hwf Hb]. by eapply below_str_nonempty.
  - right. rewrite (H1 n rest eq_refl). eexists. split; [done|].
    apply index_name_str_nonempty.
    assert (Hn : n ∈ canonical_found w self) by (rewrite Hc; by left).
    by apply list_elem_of_filter in Hn as [_ Hn].
Qed.

End StartPage.

(** ** Building the page order *)

Lemma truthy_nonempty s : s ≠ EmptyString → Py.truthy s = true.
Proof.
  intros Hs. unfold Py.truthy. apply negb_true_iff.
  by apply String.eqb_neq.
Qed.

Section Build.
Variable w : World.
Variable self : SiteToPDF.
Hypothesis Hw : world_ok w.

(** The fallback returns; its list has no page twice, holds only
    registry keys and pages on disk, keeps to a positive cap, and
    without a cap holds every registry key. *)
Lemma bfs_branch_spec start :
  ∃ b, bfs_branch w self start = Done b
    ∧ logged b = [UsingBreadthFirst; TreeBuilt (length (ordered b))]
    ∧ NoDup (ordered b)
    ∧ (∀ x, x ∈ ordered b → x ∈ keys (page_info self) ∨ on_disk w x)
    ∧ (∀ N, max_pages self = Some N → 0 < N →
         Z.of_nat (length (ordered b)) ≤ N)
    ∧ ((∀ l, under_cap self l = true) →
         ∀ k, k ∈ keys (page_info self) → k ∈ ordered b).
Proof.
  destruct (bfs_loop_start w self Hw start)
    as ([v o] & Hout & Hpre & Hnd & Hv & Hdisk & Hlen).
  unfold bfs_branch. rewrite Hout. simpl in *.
  eexists. split; [done|]. simpl. split; [done|]. split.
  { by apply append_unvisited_NoDup. }
  split.
  { intros x [Hx|Hx]%append_unvisited_elem; [|by left].
    destruct (Hdisk x Hx) as [Hnil|?]; [by inversion Hnil|by right]. }
  split.
  { intros N HN Hpos. apply append_unvisited_cap; [done..|].
    apply (Hlen N HN Hpos). simpl. lia. }
  intros Hcap k Hk. rewrite append_unvisited_uncapped, append_missing_fold
    by done.
  by apply missing_from_covers.
Qed.

Lemma build_page_tree_start start :
  find_start_page w self = Done (Some start) → start ≠ EmptyString →
  build_page_tree w self
  = match _extract_sidebar_order w self start with
    | [] => bfs_branch w self start
    | ordered_pages => Done (sidebar_branch self ordered_pages)
    end.
Proof.
  intros Hfind Hne. unfold build_page_tree. rewrite Hfind. simpl.
  by rewrite (truthy_nonempty _ Hne).
Qed.

Lemma build_page_tree_no_start :
  find_start_page w self = Done None →
  build_page_tree w self = Done (MkBuilt (str <$> html_files self) [] self).
Proof. intros Hfind. unfold build_page_tree. by rewrite Hfind. Qed.

Lemma sidebar_branch_covers o k :
  k ∈ keys (page_info self) → k ∈ ordered (sidebar_branch self o).
Proof.
  intros Hk. unfold sidebar_branch. simpl. rewrite append_missing_fold.
  by apply missing_from_covers.
Qed.

End Build.

(** A cap of zero, like no cap, leaves every test of the cap true. *)
Lemma under_cap_absent self l :
  max_pages self = None ∨ max_pages self = Some 0 → under_cap self l = true.
Proof. unfold under_cap. by intros [-> | ->]. Qed.

(** The traversal reads the cap through [under_cap] only. *)
Lemma bfs_loop_cap_ext w self cap fuel queue visited o :
  (∀ l, under_cap (set_max_pages self cap) l = under_cap self l) →
  bfs_loop w fuel (set_max_pages self cap) queue visited o
  = bfs_loop w fuel self queue visited o.
Proof.
  intros Hcap. revert queue visited o.
  induction fuel as [|fuel IH]; intros [|q queue] visited o; simpl; try done.
  - by rewrite Hcap.
  - rewrite Hcap. destruct (under_cap self o); [|done].
    case_bool_decide; [apply IH|].
    destruct (existing_page w q); apply IH.
Qed.

Lemma append_unvisited_cap_ext self cap o ks :
  (∀ l, under_cap (set_max_pages self cap) l = under_cap self l) →
  foldl (append_unvisited (set_max_pages self cap)) o ks
  = foldl (append_unvisited self) o ks.
Proof.
  intros Hcap. revert o. induction ks as [|k ks IH]; intros o; simpl; [done|].
  rewrite IH. f_equal. unfold append_unvisited. by rewrite Hcap.
Qed.

Lemma build_page_tree_cap_ext w self cap :
  (∀ l, under_cap (set_max_pages self cap) l = under_cap self l) →
  pages_of (build_page_tree w (set_max_pages self cap))
  = pages_of (build_page_tree w self).
Proof.
  intros Hcap. unfold build_page_tree.
  change (find_start_page w (set_max_pages self cap))
    with (find_start_page w self).
  destruct (find_start_page w self) as [start| |]; [|done..].
  destruct (truthy_str start) as [s|]; [|done].
  change (_extract_sidebar_order w (set_max_pages self cap) s)
    with (_extract_sidebar_order w self s).
  destruct (_extract_sidebar_order w self s) as [|p o]; [|done].
  unfold bfs_branch.
  change (bfs_fuel (set_max_pages self cap)) with (bfs_fuel self).
  rewrite bfs_loop_cap_ext by done.
  destruct (bfs_loop _ _ _ _ _ _) as [[v o]|]; [|done]. simpl.
  by rewrite append_unvisited_cap_ext.
Qed.

(** ** The registry *)

Lemma dict_get_set {V} (d : list (string * V)) k v k' :
  dict_get (dict_set d k v) k'
  = if decide (k = k') then Some v else dict_get d k'.
Proof.
  induction d as [|[k0 v0] d IH]; simpl.
  - by repeat case_decide.
  - repeat (case_decide; simpl; subst); try done; congruence.
Qed.

Lemma elem_of_dict_set {V} (d : list (string * V)) k v kv :
  kv ∈ dict_set d k v → kv ∈ d ∨ kv = (k, v).
Proof.
  induction d as [|[k0 v0] d IH]; simpl.
  - intros ->%list_elem_of_singleton. by right.
  - case_decide.
    + intros [->|?]%elem_of_cons; [by right|left; by right].
    + intros [->|[?|?]%IH]%elem_of_cons; [left; by left|left; by right|by right].
Qed.

Lemma dict_get_None {V} (d : list (string * V)) k :
  dict_get d k = None ↔ k ∉ keys d.
Proof.
  unfold keys. induction d as [|[k0 v0] d IH]; simpl.
  - split; [intros _; apply not_elem_of_nil|done].
  - rewrite not_elem_of_cons. case_decide; [naive_solver|].
    rewrite IH. naive_solver.
Qed.

Section Registry.
Variable w : World.

Lemma page_record_dir self self' f :
  httrack_dir self = httrack_dir self' →
  page_record w self f = page_record w self' f.
Proof. intros Hd. unfold page_record. by rewrite Hd. Qed.

Lemma analyze_file_record self f g :
  page_record w (analyze_file w self f) g = page_record w self g.
Proof. apply page_record_dir, analyze_file_fields. Qed.

(** Every record of the registry was made by [page_record] for a file of
    the list, or was there before. *)
Lemma analyze_fold_records l self k r :
  (k, r) ∈ page_info (foldl (analyze_file w) self l) →
  (k, r) ∈ page_info self
  ∨ ∃ f, f ∈ l ∧ k = str f ∧ page_record w self f = Some r.
Proof.
  revert self. induction l as [|f l IH]; intros self; simpl; [by left|].
  intros [Hk|(g & Hg & -> & Hr)]%IH.
  - unfold analyze_file in Hk.
    destruct (page_record w self f) as [r'|] eqn:Hrec; [|by left].
    simpl in Hk. apply elem_of_dict_set in Hk as [?|[= -> ->]]; [by left|].
    right. exists f. split; [by left|done].
  - right. exists g. split; [by right|]. split; [done|].
    by rewrite analyze_file_record in Hr.
Qed.

(** What the registry holds for a discovered file is that file's own
    record, whatever happened to the other files. *)
Lemma analyze_fold_get l self g :
  Forall wf_path l → wf_path g →
  dict_get (page_info (foldl (analyze_file w) self l)) (str g)
  = if decide (g ∈ l) then
      match page_record w self g with
      | Some r => Some r
      | None => dict_get (page_info self) (str g)
      end
    else dict_get (page_info self) (str g).
Proof.
  intros Hl Hg. revert self.
  induction Hl as [|f l Hf Hl IH]; intros self; simpl.
  { done. }
  rewrite IH, analyze_file_record.
  assert (Hstep : dict_get (page_info (analyze_file w self f)) (str g)
    = if decide (f = g) then
        match page_record w self g with
        | Some r => Some r
        | None => dict_get (page_info self) (str g)
        end
      else dict_get (page_info self) (str g)).
  { unfold analyze_file. destruct (decide (f = g)) as [->|Hfg].
    - destruct (page_record w self g); [|done].
      simpl. rewrite dict_get_set. by rewrite decide_True.
    - destruct (page_record w self f); [|done].
      simpl. rewrite dict_get_set. rewrite decide_False; [done|].
      intros Heq. by apply Hfg, str_inj. }
  rewrite Hstep. clear Hstep IH.
  destruct (decide (g ∈ l)), (decide (f = g)), (decide (g ∈ f :: l)),
    (page_record w self g); try done; exfalso; set_solver.
Qed.

(** A file without a record can be struck from the list. *)
Lemma analyze_fold_skip l self f :
  page_record w self f = None →
  foldl (analyze_file w) self (filter (λ g, g ≠ f) l)
  = foldl (analyze_file w) self l.
Proof.
  intros Hf. revert self Hf.
  induction l as [|x l IH]; intros self Hf; [done|].
  rewrite filter_cons. destruct (decide (x ≠ f)) as [Hx|Hx]; simpl.
  - apply IH. by rewrite analyze_file_record.
  - apply dec_stable in Hx. subst x.
    replace (analyze_file w self f) with self; [by apply IH|].
    unfold analyze_file. by rewrite Hf.
Qed.

Lemma analyze_fold_files l l' self :
  page_info (foldl (analyze_file w) (set_html_files self l') l)
  = page_info (foldl (analyze_file w) self l).
Proof.
  revert self. induction l as [|x l IH]; intros self; [done|]. simpl.
  assert (Hx : analyze_file w (set_html_files self l') x
               = set_html_files (analyze_file w self x) l').
  { unfold analyze_file.
    change (page_record w (set_html_files self l') x)
      with (page_record w self x).
    by destruct (page_record w self x). }
  rewrite Hx. apply IH.
Qed.

(** The state [indexed] returns, unfolded. *)
Lemma indexed_unfold dir cap self :
  indexed w dir cap = Some self →
  ∃ root, resolve w (Path_of dir) = Some root
    ∧ httrack_dir self = root
    ∧ page_info self
      = page_info (foldl (analyze_file w)
                     (find_html_files w (MkSiteToPDF root cap [] [] ∅))
                     (html_files self))
    ∧ html_files self
      = html_files (find_html_files w (MkSiteToPDF root cap [] [] ∅)).
Proof.
  unfold indexed, new_SiteToPDF.
  destruct (resolve w (Path_of dir)) as [root|]; [|done]. simpl.
  intros [= <-]. exists root. split; [done|]. unfold analyze_page_structure.
  set (self0 := find_html_files w _).
  destruct (analyze_fold_fields w (html_files self0) self0) as (Hd & Hf & _).
  rewrite Hd, Hf. done.
Qed.

End Registry.

(** ** The example sites are worlds *)

Lemma example_world_ok files : world_ok (mem_world root_dir files first_seen).
Proof. apply mem_world_ok, first_seen_ok. Qed.

Lemma site_state_ok w cap : world_ok w → state_ok (site w cap).
Proof.
  intros Hw. unfold site.
  destruct (indexed w "/site" cap) as [self|] eqn:Hidx.
  - by eapply indexed_state_ok.
  - split; [apply Path_of_wf|]. split; [constructor|].
    intros k Hk. by inversion Hk.
Qed.

(* ==================================================================== *)
(** * The claims *)




(** C4 (amended). For every registry and start page, the list of the
    breadth-first fallback holds no path twice, and every path in it is a
    key of the registry or exists on disk (a page reached through a link
    need not be a key). *)
Theorem breadth_first_no_duplicates w self start :
  world_ok w →
  ∃ b, bfs_branch w self start = Done b
       ∧ NoDup (ordered b)
       ∧ ∀ p, p ∈ ordered b → p ∈ keys (page_info self) ∨ on_disk w p.
Proof.
  intros Hw.
  destruct (bfs_branch_spec w self Hw start) as (b & Hb & _ & Hnd & Hin & _).
  by exists b.
Qed.

Lemma breadth_first_no_duplicates_witness :
  ∃ b, bfs_branch err_world (site err_world None) "/site/index.html" = Done b
       ∧ NoDup (ordered b)
       ∧ ∀ p, p ∈ ordered b →
              p ∈ keys (page_info (site err_world None)) ∨ on_disk err_world p.
Proof. apply breadth_first_no_duplicates, example_world_ok. Defined.

(** C4 as stated fails: the fallback reaches [404.html] through a link,
    and the indexer had excluded that file from the registry. *)
Lemma breadth_first_leaves_registry :
  find_start_page err_world (site err_world None)
  = Done (Some "/site/index.html")
  ∧ ∃ b, bfs_branch err_world (site err_world None) "/site/index.html" = Done b
         ∧ "/site/404.html" ∈ ordered b
         ∧ "/site/404.html" ∉ keys (page_info (site err_world None)).
Proof.
  split; [vm_compute; reflexivity|].
  eexists. split; [vm_compute; reflexivity|]. split.
  - simpl. set_solver.
  - vm_compute. intros Hin. apply list_elem_of_singleton in Hin. done.
Qed.

(** C5 (amended). The breadth-first fallback runs if and only if the
    start page has no navigation container (or cannot be read). When the
    container is found, with or without entries, the sequence made of the
    start page, then each resolved target in document order, each once,
    is the front of the result, and the registry pages that are missing
    follow it. *)
Theorem navigation_order_is_authoritative w self start :
  world_ok w →
  find_start_page w self = Done (Some start) → start ≠ EmptyString →
  ∃ b, build_page_tree w self = Done b
    ∧ (UsingBreadthFirst ∈ logged b ↔ nav_container w start = None)
    ∧ ∀ anchors, nav_container w start = Some anchors →
        let nav :=
          start :: missing_from [start]
                     (omap (nav_target w self start) anchors) in
        _extract_sidebar_order w self start = nav
        ∧ NoDup nav
        ∧ ordered b = nav ++ missing_from nav (keys (page_info self)).
Proof.
  intros Hw Hstart Hne.
  rewrite (build_page_tree_start w self start Hstart Hne).
  destruct (nav_container w start) as [anchors|] eqn:Hnav.
  - rewrite (extract_sidebar_order_container w self start anchors Hnav).
    eexists. split; [done|]. split.
    + simpl. split; [|done].
      intros [Hx|Hx]%elem_of_cons; [done|].
      by apply list_elem_of_singleton in Hx.
    + intros anchors' Heq. injection Heq as <-. simpl.
      split; [done|]. split.
      * apply (missing_from_NoDup [start]), NoDup_singleton.
      * apply append_missing_fold.
  - rewrite (extract_sidebar_order_none w self start Hnav).
    destruct (bfs_branch_spec w self Hw start) as (b & -> & Hlog & _).
    exists b. split; [done|]. split; [|done].
    rewrite Hlog. split; [done|]. intros _. by left.
Qed.

Lemma navigation_order_is_authoritative_witness :
  ∃ b, build_page_tree nav_world (site nav_world None) = Done b
    ∧ (UsingBreadthFirst ∈ logged b
       ↔ nav_container nav_world "/site/index.html" = None)
    ∧ ∀ anchors, nav_container nav_world "/site/index.html" = Some anchors →
        let nav :=
          "/site/index.html"
          :: missing_from ["/site/index.html"]
               (omap (nav_target nav_world (site nav_world None)
                        "/site/index.html") anchors) in
        _extract_sidebar_order nav_world (site nav_world None)
          "/site/index.html" = nav
        ∧ NoDup nav
        ∧ ordered b
          = nav ++ missing_from nav (keys (page_info (site nav_world None))).
Proof.
  apply navigation_order_is_authoritative.
  - apply example_world_ok.
  - vm_compute. reflexivity.
  - discriminate.
Defined.

(** C5 as stated fails: a container that is found and yields no entry
    does not start the fallback; the result is the registry order, where
    the fallback would have followed the links. *)
Lemma empty_container_is_no_fallback :
  find_start_page empty_nav_world (site empty_nav_world None)
  = Done (Some "/site/index.html")
  ∧ nav_container empty_nav_world "/site/index.html" = Some []
  ∧ ∃ b, build_page_tree empty_nav_world (site empty_nav_world None) = Done b
      ∧ (UsingBreadthFirst ∉ logged b)
      ∧ ordered b = ["/site/index.html"; "/site/a.html"; "/site/b.html"]
      ∧ pages_of (bfs_branch empty_nav_world (site empty_nav_world None)
                    "/site/index.html")
        = ["/site/index.html"; "/site/b.html"; "/site/a.html"].
Proof.
  split; [vm_compute; reflexivity|]. split; [vm_compute; reflexivity|].
  eexists. split; [vm_compute; reflexivity|]. split.
  - simpl. intros [Hx|Hx]%elem_of_cons; [done|].
    by apply list_elem_of_singleton in Hx.
  - split; [reflexivity|]. vm_compute. reflexivity.
Qed.

(** C10. With a cap of 0, as with no cap, every test of the cap is true
    (in the traversal's loop condition and in the post-processing alike),
    the result is the one of the run without a cap, and every registry
    page is in it. *)
Theorem zero_cap_is_no_cap w self :
  world_ok w → state_ok self →
  max_pages self = None ∨ max_pages self = Some 0 →
  (∀ l, under_cap self l = true)
  ∧ pages_of (build_page_tree w self)
    = pages_of (build_page_tree w (set_max_pages self None))
  ∧ ∃ b, build_page_tree w self = Done b
         ∧ ∀ k, k ∈ keys (page_info self) → k ∈ ordered b.
Proof.
  intros Hw Hok Hcap.
  assert (Hunder : ∀ l, under_cap self l = true).
  { intros l. by apply under_cap_absent. }
  split; [done|]. split.
  { symmetry. apply build_page_tree_cap_ext. intros l. by rewrite Hunder. }
  destruct (find_start_page_returns w self Hok)
    as [[Hnone Hfiles]|(start & Hstart & Hne)].
  - rewrite (build_page_tree_no_start w self Hnone).
    eexists. split; [done|]. intros k Hk.
    destruct Hok as (_ & _ & Hkeys). apply Hkeys in Hk.
    rewrite Hfiles in Hk. by inversion Hk.
  - rewrite (build_page_tree_start w self start Hstart Hne).
    destruct (_extract_sidebar_order w self start) as [|p o].
    + destruct (bfs_branch_spec w self Hw start)
        as (b & -> & _ & _ & _ & _ & Hall).
      exists b. split; [done|]. by apply Hall.
    + eexists. split; [done|]. intros k Hk. by apply sidebar_branch_covers.
Qed.

Lemma zero_cap_is_no_cap_witness :
  (∀ l, under_cap (site abc_world (Some 0)) l = true)
  ∧ pages_of (build_page_tree abc_world (site abc_world (Some 0)))
    = pages_of (build_page_tree abc_world
                  (set_max_pages (site abc_world (Some 0)) None))
  ∧ ∃ b, build_page_tree abc_world (site abc_world (Some 0)) = Done b
         ∧ ∀ k, k ∈ keys (page_info (site abc_world (Some 0))) → k ∈ ordered b.
Proof.
  apply zero_cap_is_no_cap.
  - apply example_world_ok.
  - apply site_state_ok, example_world_ok.
  - right. vm_compute. reflexivity.
Defined.

Example run_zero_cap :
  pages_of (build_page_tree abc_world (site abc_world (Some 0)))
  = ["/site/index.html"; "/site/a.html"; "/site/b.html"; "/site/c.html"].
Proof. vm_compute. reflexivity. Qed.

(** ** What the indexer stores *)

Lemma page_record_Some w self f r :
  page_record w self f = Some r →
  ∃ soup rel,
    read_soup w f = Some soup
    ∧ relative_to f (httrack_dir self) = Some rel
    ∧ file r = f
    ∧ links r = set_list w (extract_links soup)
    ∧ depth r = Z.of_nat (length (parts rel)) - 1
    ∧ relative_path r = str rel.
Proof.
  unfold page_record.
  destruct (read_soup w f) as [soup|]; [|done]. simpl.
  destruct (relative_to f (httrack_dir self)) as [rel|]; [|done]. simpl.
  destruct (stat_size w f) as [sz|]; [|done]. simpl.
  intros [= <-]. by exists soup, rel.
Qed.

Lemma indexed_record w dir cap self k r :
  world_ok w → indexed w dir cap = Some self → (k, r) ∈ page_info self →
  ∃ f, f ∈ html_files self ∧ wf_path f ∧ below (httrack_dir self) f
       ∧ k = str f ∧ page_record w self f = Some r.
Proof.
  intros Hw Hidx Hk.
  destruct (indexed_state_ok w dir cap self Hw Hidx) as (_ & Hfiles & _).
  rewrite Forall_forall in Hfiles.
  destruct (indexed_unfold w dir cap self Hidx) as (root & _ & Hd & Hp & _).
  rewrite Hp in Hk.
  apply analyze_fold_records in Hk as [Hk|(f & Hf & -> & Hr)].
  { by inversion Hk. }
  destruct (Hfiles f Hf) as [Hwf Hb].
  exists f. repeat (split; [done|]).
  rewrite <- Hr. by apply page_record_dir.
Qed.

Lemma removelast_single_inv {A} (l : list A) x :
  removelast (x :: l) = [] → l = [].
Proof. by destruct l. Qed.

(** C2 (amended). For every file the indexer indexes, the stored [links]
    are the cleaned [href] values of the page (fragment and query
    stripped, percent-decoded) that are not empty and end in [.html],
    [.htm] or [/], each once. They are not resolved and not checked
    against the file system at scan time: the Link Resolver drops the
    dangling ones later, during ordering. *)
Theorem links_are_cleaned_hrefs w dir cap self k r :
  world_ok w → indexed w dir cap = Some self → (k, r) ∈ page_info self →
  ∃ soup, read_soup w (file r) = Some soup
    ∧ k = str (file r)
    ∧ NoDup (links r)
    ∧ ∀ l, l ∈ links r
           ↔ l ∈ clean_href <$> soup_hrefs soup ∧ is_page_link l = true.
Proof.
  intros Hw Hidx Hk.
  destruct (indexed_record w dir cap self k r Hw Hidx Hk)
    as (f & _ & _ & _ & -> & Hrec).
  apply page_record_Some in Hrec
    as (soup & rel & Hsoup & _ & Hfile & Hlinks & _).
  destruct Hw as (_ & _ & Hset).
  destruct (Hset (extract_links soup)) as [Hnd Hin].
  exists soup. rewrite Hfile, Hlinks. repeat (split; [done|]).
  intros l. rewrite Hin. unfold extract_links.
  rewrite list_elem_of_filter. naive_solver.
Qed.

Lemma links_are_cleaned_hrefs_witness :
  ∃ soup, read_soup err_world (Path_of "/site/index.html") = Some soup
    ∧ NoDup ["404.html"; "gone.html"]
    ∧ ∀ l, l ∈ ["404.html"; "gone.html"]
           ↔ l ∈ clean_href <$> soup_hrefs soup ∧ is_page_link l = true.
Proof.
  assert (Hidx : indexed err_world "/site" None = Some (site err_world None))
    by (vm_compute; reflexivity).
  destruct (links_are_cleaned_hrefs err_world "/site" None
              (site err_world None) "/site/index.html"
              (MkPageRecord "index" EmptyString ["404.html"; "gone.html"]
                 (Path_of "/site/index.html") 0 100 "index.html")
              (example_world_ok err_files) Hidx)
    as (soup & Hsoup & _ & Hnd & Hin).
  - vm_compute. left.
  - by exists soup.
Defined.

(** C2 as stated fails: the registry keeps the link [gone.html] of
    [index.html], which resolves to no file. *)
Lemma dangling_link_is_stored :
  ∃ r, dict_get (page_info (site err_world None)) "/site/index.html" = Some r
    ∧ "gone.html" ∈ links r
    ∧ _resolve_link err_world (site err_world None)
        "/site/index.html" "gone.html" = None
    ∧ exists_ err_world (Path_of "/site/gone.html") = false.
Proof.
  eexists. split; [vm_compute; reflexivity|]. split.
  - simpl. set_solver.
  - split; vm_compute; reflexivity.
Qed.

(** C8. For every file the indexer indexes, the stored [depth] is the
    number of segments of the path relative to the root, minus one; it
    is the number of separators in the stored relative path; and a file
    directly under the root has depth 0. *)
Theorem depth_counts_separators w dir cap self k r :
  world_ok w → indexed w dir cap = Some self → (k, r) ∈ page_info self →
  ∃ rel, relative_to (file r) (httrack_dir self) = Some rel
    ∧ relative_path r = str rel
    ∧ depth r = Z.of_nat (length (parts rel)) - 1
    ∧ depth r = Z.of_nat (Py.count "/" (relative_path r))
    ∧ (parent (file r) = httrack_dir self → depth r = 0).
Proof.
  intros Hw Hidx Hk.
  destruct (indexed_record w dir cap self k r Hw Hidx Hk)
    as (f & _ & Hwf & Hbelow & -> & Hrec).
  apply page_record_Some in Hrec
    as (soup & rel & _ & Hrel & Hfile & _ & Hdepth & Hpath).
  exists rel. rewrite Hfile, Hpath, Hdepth. repeat (split; [done|]).
  unfold below in Hbelow. rewrite Hrel in Hbelow.
  destruct (relative_to_names _ _ _ Hrel) as [Hanchor Hnames].
  assert (Hvalid : Forall valid_name (names rel)).
  { unfold wf_path in Hwf. rewrite Hnames in Hwf.
    by apply Forall_app in Hwf as [_ ?]. }
  assert (Hparts : parts rel = names rel).
  { unfold parts. by rewrite Hanchor. }
  assert (Hstr : str rel = Py.join "/" (names rel)).
  { unfold str. rewrite Hanchor. by destruct (names rel). }
  rewrite Hparts, Hstr, (count_join _ Hvalid Hbelow).
  destruct (names rel) as [|n ns] eqn:Hn; [done|]. split.
  - simpl. lia.
  - intros Hparent. unfold parent in Hparent.
    apply (f_equal names) in Hparent. simpl in Hparent.
    rewrite Hnames, removelast_app in Hparent by done.
    rewrite <- (app_nil_r (names (httrack_dir self))) in Hparent at 2.
    apply app_inv_head, removelast_single_inv in Hparent. by subst.
Qed.

Lemma depth_counts_separators_witness :
  ∃ rel, relative_to (Path_of "/site/guide/intro/index.html")
           (httrack_dir (site guide_world None)) = Some rel
    ∧ "guide/intro/index.html" = str rel
    ∧ 2 = Z.of_nat (length (parts rel)) - 1
    ∧ 2 = Z.of_nat (Py.count "/" "guide/intro/index.html")
    ∧ (parent (Path_of "/site/guide/intro/index.html")
       = httrack_dir (site guide_world None) → 2 = 0).
Proof.
  assert (Hidx : indexed guide_world "/site" None
                 = Some (site guide_world None))
    by (vm_compute; reflexivity).
  apply (depth_counts_separators guide_world "/site" None
           (site guide_world None) "/site/guide/intro/index.html"
           (MkPageRecord "index" EmptyString []
              (Path_of "/site/guide/intro/index.html") 2 100
              "guide/intro/index.html")
           (example_world_ok guide_files) Hidx).
  vm_compute. left.
Defined.

Example depth_of_root_level_file :
  depth <$> dict_get (page_info (site abc_world None)) "/site/a.html" = Some 0.
Proof. vm_compute. reflexivity. Qed.

(** C9. When reading, parsing or sizing one file raises during indexing,
    that file gets no entry in the registry, every discovered file that
    can be indexed has its own record there, and the registry is the one
    of a scan in which the failing file never came up. *)
Theorem failing_file_is_skipped w self f :
  Forall wf_path (html_files self) → page_info self = [] →
  f ∈ html_files self → page_record w self f = None →
  let registry := page_info (analyze_page_structure w self) in
  (str f ∉ keys registry)
  ∧ (∀ g, g ∈ html_files self → dict_get registry (str g) = page_record w self g)
  ∧ registry
    = page_info (analyze_page_structure w
                   (set_html_files self
                      (filter (λ g, g ≠ f) (html_files self)))).
Proof.
  intros Hwf Hempty Hf Hrec registry.
  assert (Hget : ∀ g, g ∈ html_files self →
                      dict_get registry (str g) = page_record w self g).
  { intros g Hg. unfold registry, analyze_page_structure.
    rewrite analyze_fold_get;
      [|done|by apply (proj1 (Forall_forall _ _) Hwf)].
    rewrite decide_True, Hempty by done. by destruct (page_record w self g). }
  split; [|split; [done|]].
  - apply dict_get_None. by rewrite (Hget f Hf).
  - unfold registry, analyze_page_structure. simpl.
    by rewrite analyze_fold_files, analyze_fold_skip.
Qed.

Lemma failing_file_is_skipped_witness :
  let self := find_html_files guide_world
                (MkSiteToPDF (Path_of "/site") None [] [] ∅) in
  let f := Path_of "/site/a.html" in
  let registry := page_info (analyze_page_structure guide_world self) in
  (str f ∉ keys registry)
  ∧ (∀ g, g ∈ html_files self →
          dict_get registry (str g) = page_record guide_world self g)
  ∧ registry
    = page_info (analyze_page_structure guide_world
                   (set_html_files self
                      (filter (λ g, g ≠ f) (html_files self)))).
Proof.
  intros self f. apply (failing_file_is_skipped guide_world self f).
  - apply (bool_decide_unpack _). vm_compute. exact I.
  - reflexivity.
  - apply (bool_decide_unpack _). vm_compute. exact I.
  - vm_compute. reflexivity.
Defined.

Example run_failing_file :
  keys (page_info (site guide_world None))
  = ["/site/guide/intro/index.html"; "/site/guide/index.html";
     "/site/other/index.html"]
  ∧ html_files (site guide_world None)
    = Path_of <$> ["/site/guide/intro/index.html"; "/site/a.html";
                   "/site/guide/index.html"; "/site/other/index.html"].
Proof. split; vm_compute; reflexivity. Qed.

(** ** Resolving a link *)

Lemma lstrip_start s chars c :
  Py.mem_char c chars = true →
  Py.startswith (Py.lstrip s chars) (String c EmptyString) = false.
Proof.
  intros Hc. induction s as [|a s IH]; simpl; [done|].
  destruct (Py.mem_char a chars) eqn:Ha; [done|].
  unfold Py.startswith. simpl. destruct (ascii_dec c a) as [->|]; [|done].
  congruence.
Qed.

(** C3, evaluated. [link.lstrip('./')] drops every leading dot and slash,
    not one leading [./]: no link starts with [/] afterwards, so the
    branch that resolves against the root is never taken. From
    [/site/docs/page.html] the links [/about.html] and [../about.html]
    both resolve to [/site/docs/about.html], where the claim gives
    [/site/about.html]. *)
Theorem resolve_link_never_uses_root :
  (∀ link, Py.startswith (Py.lstrip link "./") "/" = false)
  ∧ Py.lstrip "../about.html" "./" = "about.html"
  ∧ _resolve_link docs_world (site docs_world None)
      "/site/docs/page.html" "/about.html" = Some "/site/docs/about.html"
  ∧ _resolve_link docs_world (site docs_world None)
      "/site/docs/page.html" "../about.html" = Some "/site/docs/about.html"
  ∧ _resolve_link docs_world (site docs_world None)
      "/site/docs/page.html" "./about.html" = Some "/site/docs/about.html"
  ∧ is_file docs_world (Path_of "/site/about.html") = true.
Proof.
  split; [intros link; by apply lstrip_start|].
  repeat split; vm_compute; reflexivity.
Qed.

(** The root plays no part in the result of [_resolve_link]. *)
Lemma resolve_link_ignores_root w self self' current_page link :
  _resolve_link w self current_page link
  = _resolve_link w self' current_page link.
Proof.
  unfold _resolve_link. destruct (negb _); [|done].
  by rewrite (lstrip_start link "./" "/").
Qed.

(** ** The start page *)

(** C6. [find_start_page] goes through its tiers in order and the first
    match wins: the first canonical index name that exists directly
    under the root; else, among the discovered files with [index] in
    their lower-cased name, the first one with the shortest path string;
    else the first discovered file with the fewest segments relative to
    the root; and nothing only when no file was discovered. *)
Theorem find_start_page_tiers w self :
  Forall (below (httrack_dir self)) (html_files self) →
  let root := httrack_dir self in
  let index_files := filter is_index_file (html_files self) in
  (∀ n rest, canonical_found w self = n :: rest →
     find_start_page w self = Done (Some (str (joinpath root n))))
  ∧ (canonical_found w self = [] → index_files ≠ [] →
     ∃ f, find_start_page w self = Done (Some (str f))
          ∧ first_min (λ x, Py.len (str x)) index_files f)
  ∧ (canonical_found w self = [] → index_files = [] → html_files self ≠ [] →
     ∃ f, find_start_page w self = Done (Some (str f))
          ∧ first_min (rel_segments root) (html_files self) f)
  ∧ (find_start_page w self = Done None
     ↔ canonical_found w self = [] ∧ html_files self = []).
Proof. apply find_start_page_spec. Qed.

Lemma find_start_page_tiers_witness :
  ∃ f, find_start_page guide_world (site guide_world None)
       = Done (Some (str f))
       ∧ first_min (λ x, Py.len (str x))
           (filter is_index_file (html_files (site guide_world None))) f.
Proof.
  assert (Hbelow : Forall (below (httrack_dir (site guide_world None)))
                     (html_files (site guide_world None))).
  { apply (bool_decide_unpack _). vm_compute. exact I. }
  destruct (find_start_page_tiers guide_world (site guide_world None) Hbelow)
    as (_ & Htier2 & _).
  apply Htier2.
  - vm_compute. reflexivity.
  - vm_compute. discriminate.
Defined.

Lemma len_go_ascii s :
  (∀ a, Py.mem_char a s = true → (N_of_ascii a < 128)%N) →
  Py.len_go 0 s = String.length s.
Proof.
  induction s as [|a s IH]; intros Hs; [done|].
  assert (Ha : (N_of_ascii a <? 128)%N = true).
  { apply N.ltb_lt, Hs. by rewrite mem_char_cons, bool_decide_eq_true_2. }
  cbn [Py.len_go Py.utf8_width String.length]. rewrite Ha. cbn [Nat.sub].
  f_equal. apply IH. intros b Hb. apply Hs.
  rewrite mem_char_cons, Hb. by destruct (bool_decide _).
Qed.

(** On a string of ASCII characters the code points are the bytes. *)
Lemma len_ascii s :
  (∀ a, Py.mem_char a s = true → (N_of_ascii a < 128)%N) →
  Py.len s = String.length s.
Proof. apply len_go_ascii. Qed.

Example len_examples :
  Py.len "/site/abc/index.html" = 20%nat
  ∧ Py.len "/site/目录/index.html" = 19%nat
  ∧ String.length "/site/目录/index.html" = 23%nat
  ∧ Py.len "└─ " = 3%nat.
Proof. repeat split; vm_compute; reflexivity. Qed.

(** The shorter path is the one with fewer code points. *)
Example run_unicode_start_page :
  find_start_page unicode_world (site unicode_world None)
  = Done (Some "/site/目录/index.html").
Proof. vm_compute. reflexivity. Qed.

Example run_start_pages :
  find_start_page abc_world (site abc_world None)
  = Done (Some "/site/index.html")
  ∧ find_start_page guide_world (site guide_world None)
    = Done (Some "/site/guide/index.html")
  ∧ find_start_page flat_world (site flat_world None)
    = Done (Some "/site/p.html")
  ∧ find_start_page flat_world (MkSiteToPDF (Path_of "/site") None [] [] ∅)
    = Done None.
Proof. repeat split; vm_compute; reflexivity. Qed.

(** ** The order of a page's links *)

Lemma set_order_nil order : set_order_ok order → order [] = [].
Proof.
  intros Hord. destruct (Hord []) as [_ Hin].
  destruct (order []) as [|a l]; [done|].
  specialize (Hin a). set_solver.
Qed.

Lemma set_order_one order x : set_order_ok order → order [x] = [x].
Proof.
  intros Hord. destruct (Hord [x]) as [Hnd Hin].
  destruct (order [x]) as [|a [|b l]].
  - specialize (Hin x). set_solver.
  - specialize (Hin a). f_equal. set_solver.
  - pose proof (Hin a). pose proof (Hin b).
    apply NoDup_cons in Hnd as [Ha _]. set_solver.
Qed.

Lemma set_order_two order x y :
  set_order_ok order → x ≠ y →
  order [x; y] = [x; y] ∨ order [x; y] = [y; x].
Proof.
  intros Hord Hxy. destruct (Hord [x; y]) as [Hnd Hin].
  destruct (order [x; y]) as [|a [|b [|c l]]].
  - specialize (Hin x). set_solver.
  - pose proof (Hin x). pose proof (Hin y). set_solver.
  - pose proof (Hin a). pose proof (Hin b).
    apply NoDup_cons in Hnd as [Ha _].
    assert (a = x ∨ a = y) as [-> | ->] by set_solver;
      assert (b = x ∨ b = y) as [-> | ->] by set_solver;
      try (exfalso; set_solver); auto.
  - pose proof (Hin a). pose proof (Hin b). pose proof (Hin c).
    apply NoDup_cons in Hnd as [Ha Hnd]. apply NoDup_cons in Hnd as [Hb _].
    exfalso.
    assert (a = x ∨ a = y) as [-> | ->] by set_solver;
      assert (b = x ∨ b = y) as [-> | ->] by set_solver;
      assert (c = x ∨ c = y) as [-> | ->] by set_solver; set_solver.
Qed.

(** C7 (amended). In the scenario ([index.html] links to [a.html] and
    [b.html] in that document order, [a.html] links to [c.html], no
    navigation container) the fallback enqueues the links of a page in
    the order of the registry's link list of that page. That list is
    [list(set(...))]: it need not keep the document order. The result is
    [index, a, b, c] when the list holds [a.html] first, and
    [index, b, a, c] when it holds [b.html] first. *)
Theorem abc_order_follows_link_list order :
  set_order_ok order →
  let w := mem_world root_dir abc_files order in
  let pages := pages_of (build_page_tree w (site w None)) in
  ∃ r, dict_get (page_info (site w None)) "/site/index.html" = Some r
    ∧ ((links r = ["a.html"; "b.html"]
        ∧ pages = ["/site/index.html"; "/site/a.html"; "/site/b.html";
                   "/site/c.html"])
       ∨ (links r = ["b.html"; "a.html"]
          ∧ pages = ["/site/index.html"; "/site/b.html"; "/site/a.html";
                     "/site/c.html"])).
Proof.
  intros Hord w pages. unfold pages. clear pages.
  pose proof (set_order_nil order Hord) as Hnil.
  pose proof (set_order_one order "c.html" Hord) as Hc.
  remember (site w None) as s eqn:Hs. vm_compute in Hs.
  rewrite Hnil, Hc in Hs.
  destruct (set_order_two order "a.html" "b.html" Hord) as [Hab|Hab];
    [done| |]; rewrite Hab in Hs; subst s;
    (eexists; split; [vm_compute; reflexivity|]); [left|right];
    (split; [reflexivity|vm_compute; reflexivity]).
Qed.

Lemma abc_order_follows_link_list_witness :
  ∃ r, dict_get (page_info (site abc_world None)) "/site/index.html" = Some r
    ∧ ((links r = ["a.html"; "b.html"]
        ∧ pages_of (build_page_tree abc_world (site abc_world None))
          = ["/site/index.html"; "/site/a.html"; "/site/b.html";
             "/site/c.html"])
       ∨ (links r = ["b.html"; "a.html"]
          ∧ pages_of (build_page_tree abc_world (site abc_world None))
            = ["/site/index.html"; "/site/b.html"; "/site/a.html";
               "/site/c.html"])).
Proof. apply (abc_order_follows_link_list first_seen), first_seen_ok. Defined.

(** C7 as stated fails: where the set of links yields [b.html] before
    [a.html], the fallback returns [index, b, a, c]. *)
Lemma abc_order_not_document_order :
  world_ok abc_world_rev
  ∧ soup_hrefs <$> read_soup abc_world_rev (Path_of "/site/index.html")
    = Some ["a.html"; "b.html"]
  ∧ nav_container abc_world_rev "/site/index.html" = None
  ∧ pages_of (build_page_tree abc_world_rev (site abc_world_rev None))
    = ["/site/index.html"; "/site/b.html"; "/site/a.html"; "/site/c.html"]
  ∧ pages_of (build_page_tree abc_world_rev (site abc_world_rev None))
    ≠ ["/site/index.html"; "/site/a.html"; "/site/b.html"; "/site/c.html"].
Proof.
  split; [apply mem_world_ok, last_seen_first_ok|].
  repeat split; try (vm_compute; reflexivity).
  vm_compute. discriminate.
Qed.

(* ==================================================================== *)
(** * Further properties of the code *)

(** ** Discovery *)

Example run_find_html_files :
  html_files (find_html_files err_world
                (MkSiteToPDF (Path_of "/site") None [] [] ∅))
  = [Path_of "/site/index.html"]
  ∧ rglob err_world (Path_of "/site") "*.html"
    = [Path_of "/site/index.html"; Path_of "/site/404.html"].
Proof. split; vm_compute; reflexivity. Qed.

(** ** The registry as a dictionary *)

Lemma keys_dict_set_eq {V} (d : list (string * V)) k v :
  keys (dict_set d k v)
  = if decide (k ∈ keys d) then keys d else keys d ++ [k].
Proof.
  unfold keys. induction d as [|[k0 v0] d IH]; csimpl; [done|].
  destruct (decide (k0 = k)) as [->|Hne]; csimpl.
  - by rewrite decide_True by (by left).
  - rewrite IH. destruct (decide (k ∈ d.*1)).
    + by rewrite decide_True by (by right).
    + rewrite decide_False; [done|]. intros [?|?]%elem_of_cons; congruence.
Qed.

Lemma dict_set_same {V} (d : list (string * V)) k v :
  dict_get d k = Some v → dict_set d k v = d.
Proof.
  induction d as [|[k0 v0] d IH]; simpl; [done|].
  case_decide; [by intros [= ->]; subst|]. intros ?%IH. by f_equal.
Qed.

Lemma analyze_fold_keys_order w l self :
  Forall wf_path l → NoDup l →
  (∀ f, f ∈ l → str f ∉ keys (page_info self)) →
  keys (page_info (foldl (analyze_file w) self l))
  = keys (page_info self)
    ++ (str <$> filter (λ f, is_Some (page_record w self f)) l).
Proof.
  intros Hwf. revert self.
  induction Hwf as [|f l Hf Hl IH]; intros self Hnd Hfresh; simpl.
  { by rewrite app_nil_r. }
  apply NoDup_cons in Hnd as [Hfl Hnd].
  assert (Hrec : ∀ g, page_record w (analyze_file w self f) g
                      = page_record w self g)
    by (intros g; apply analyze_file_record).
  rewrite IH; [|done|].
  - rewrite (list_filter_iff _ (λ g, is_Some (page_record w self g)))
      by (intros g; by rewrite Hrec).
    rewrite filter_cons. unfold analyze_file.
    destruct (page_record w self f) as [r|] eqn:Hr.
    + case_decide as Hsome; [|by destruct Hsome].
      simpl. rewrite keys_dict_set_eq.
      rewrite decide_False by (apply Hfresh; by left).
      by rewrite <- app_assoc.
    + case_decide as Hsome; [by destruct Hsome|done].
  - intros g Hg. unfold analyze_file.
    destruct (page_record w self f) as [r|]; simpl.
    + rewrite keys_dict_set_eq.
      rewrite decide_False by (apply Hfresh; by left).
      rewrite not_elem_of_app. split; [apply Hfresh; by right|].
      intros Heq%list_elem_of_singleton.
      apply str_inj in Heq; [by subst| |done].
      by apply (proj1 (Forall_forall _ _) Hl).
    + apply Hfresh. by right.
Qed.

(** X1. Starting from an empty registry, with each discovered file listed
    once, the registry's keys are the path strings of the files that
    could be indexed, in the order of discovery. *)
Theorem registry_keys_in_discovery_order w self :
  Forall wf_path (html_files self) → NoDup (html_files self) →
  page_info self = [] →
  keys (page_info (analyze_page_structure w self))
  = str <$> filter (λ f, is_Some (page_record w self f)) (html_files self).
Proof.
  intros Hwf Hnd Hempty. unfold analyze_page_structure.
  rewrite analyze_fold_keys_order, Hempty; [done..|].
  intros f _. rewrite Hempty. apply not_elem_of_nil.
Qed.

Lemma registry_keys_in_discovery_order_witness :
  let self := find_html_files guide_world
                (MkSiteToPDF (Path_of "/site") None [] [] ∅) in
  keys (page_info (analyze_page_structure guide_world self))
  = str <$> filter (λ f, is_Some (page_record guide_world self f))
              (html_files self).
Proof.
  intros self. apply registry_keys_in_discovery_order.
  - apply (bool_decide_unpack _). vm_compute. exact I.
  - apply (bool_decide_unpack _). vm_compute. exact I.
  - reflexivity.
Defined.

Lemma analyze_file_fixed w s f :
  (∀ r, page_record w s f = Some r → dict_get (page_info s) (str f) = Some r) →
  analyze_file w s f = s.
Proof.
  intros Hget. unfold analyze_file.
  destruct (page_record w s f) as [r|]; [|done].
  rewrite (dict_set_same _ _ _ (Hget r eq_refl)). by destruct s.
Qed.

(** X2. Indexing twice is indexing once: a second pass over the same files
    leaves the state as the first pass left it. *)
Theorem analyze_page_structure_idempotent w self :
  Forall wf_path (html_files self) →
  analyze_page_structure w (analyze_page_structure w self)
  = analyze_page_structure w self.
Proof.
  intros Hwf. unfold analyze_page_structure at 1.
  set (s := analyze_page_structure w self).
  destruct (analyze_fold_fields w (html_files self) self) as (Hd & Hf & _).
  fold (analyze_page_structure w self) in Hd, Hf. fold s in Hd, Hf.
  rewrite Hf.
  assert (Hfix : ∀ f, f ∈ html_files self → analyze_file w s f = s).
  { intros f Hin. apply analyze_file_fixed. intros r Hr.
    rewrite (page_record_dir w s self f Hd) in Hr.
    unfold s, analyze_page_structure.
    rewrite analyze_fold_get;
      [|done|by apply (proj1 (Forall_forall _ _) Hwf)].
    by rewrite decide_True, Hr by done. }
  revert Hfix. generalize (html_files self) as l.
  induction l as [|f l IH]; intros Hfix; [done|]. simpl.
  rewrite Hfix by (by left). apply IH. intros g Hg. apply Hfix. by right.
Qed.

Lemma analyze_page_structure_idempotent_witness :
  let self := find_html_files guide_world
                (MkSiteToPDF (Path_of "/site") None [] [] ∅) in
  analyze_page_structure guide_world (analyze_page_structure guide_world self)
  = analyze_page_structure guide_world self.
Proof.
  intros self. apply analyze_page_structure_idempotent.
  apply (bool_decide_unpack _). vm_compute. exact I.
Defined.

(** ** What the resolvers return *)

(** X3. [_resolve_link] returns nothing for an [http://] or [https://] link,
    and whatever it returns is the normalised path string of an existing
    regular file. *)
Theorem resolve_link_returns_regular_file w self current_page link q :
  world_ok w → _resolve_link w self current_page link = Some q →
  Py.startswith_any link ["http://"; "https://"] = false
  ∧ exists_ w (Path_of q) = true
  ∧ is_file w (Path_of q) = true
  ∧ str (Path_of q) = q.
Proof.
  intros (Hres & _). unfold _resolve_link.
  destruct (Py.startswith_any link _); [done|]. simpl negb. cbv iota.
  destruct (resolve w _) as [p|] eqn:Hp; [|done].
  destruct (exists_ w p && is_file w p) eqn:Hex; [|done].
  intros [= <-]. rewrite Path_of_str by (by eapply Hres).
  by apply andb_true_iff in Hex as [? ?].
Qed.

Lemma resolve_link_returns_regular_file_witness :
  Py.startswith_any "c.html" ["http://"; "https://"] = false
  ∧ exists_ abc_world (Path_of "/site/c.html") = true
  ∧ is_file abc_world (Path_of "/site/c.html") = true
  ∧ str (Path_of "/site/c.html") = "/site/c.html".
Proof.
  apply (resolve_link_returns_regular_file abc_world (site abc_world None)
           "/site/a.html" "c.html" "/site/c.html").
  - apply example_world_ok.
  - vm_compute. reflexivity.
Defined.

Example run_resolve_link :
  _resolve_link abc_world (site abc_world None) "/site/a.html"
    "https://example.org/c.html" = None
  ∧ _resolve_link abc_world (site abc_world None) "/site/a.html"
      "missing.html" = None
  ∧ _resolve_link guide_world (site guide_world None) "/site/a.html"
      "guide/" = Some "/site/guide/index.html"
  ∧ _resolve_link guide_world (site guide_world None) "/site/a.html"
      "guide" = None.
Proof. repeat split; vm_compute; reflexivity. Qed.

Lemma nav_target_Some w self start link q :
  nav_target w self start link = Some q →
  ∃ href, link = Some href ∧ href ≠ EmptyString
    ∧ Py.startswith_any href ["http://"; "https://"; "#"] = false
    ∧ _resolve_link w self start href = Some q.
Proof.
  unfold nav_target. destruct link as [href|]; [|by cbn].
  change (default EmptyString (Some href)) with href.
  destruct (Py.truthy href) eqn:Ht; [|done].
  destruct (Py.startswith_any href ["http://"; "https://"; "#"]) eqn:Hs;
    [done|].
  cbn [andb negb]. intros Hq%truthy_str_Some.
  exists href. repeat split; try done.
  intros ->. done.
Qed.

(** X4. Every page of the sidebar order other than the index page itself
    comes from an anchor of the container with a non-empty [href] that is
    neither external nor a fragment, and is an existing regular file. *)
Theorem sidebar_order_pages_exist w self start p :
  world_ok w → p ∈ _extract_sidebar_order w self start →
  p = start
  ∨ (is_file w (Path_of p) = true ∧ on_disk w p
     ∧ ∃ anchors href,
         nav_container w start = Some anchors ∧ Some href ∈ anchors
         ∧ href ≠ EmptyString
         ∧ Py.startswith_any href ["http://"; "https://"; "#"] = false
         ∧ _resolve_link w self start href = Some p).
Proof.
  intros Hw Hp.
  destruct (nav_container w start) as [anchors|] eqn:Hnav.
  2: { rewrite (extract_sidebar_order_none w self start Hnav) in Hp.
       by inversion Hp. }
  rewrite (extract_sidebar_order_container w self start anchors Hnav) in Hp.
  apply elem_of_cons in Hp as [->|Hp]; [by left|]. right.
  apply missing_from_subset, list_elem_of_omap in Hp as (link & Hlink & Hq).
  apply nav_target_Some in Hq as (href & -> & Hne & Hext & Hres).
  destruct (resolve_link_returns_regular_file w self start href p Hw Hres)
    as (_ & Hex & Hfile & _).
  split; [done|]. split; [done|]. by exists anchors, href.
Qed.

Lemma sidebar_order_pages_exist_witness :
  "/site/b.html" = "/site/index.html"
  ∨ (is_file nav_world (Path_of "/site/b.html") = true
     ∧ on_disk nav_world "/site/b.html"
     ∧ ∃ anchors href,
         nav_container nav_world "/site/index.html" = Some anchors
         ∧ Some href ∈ anchors
         ∧ href ≠ EmptyString
         ∧ Py.startswith_any href ["http://"; "https://"; "#"] = false
         ∧ _resolve_link nav_world (site nav_world None)
             "/site/index.html" href = Some "/site/b.html").
Proof.
  apply sidebar_order_pages_exist.
  - apply example_world_ok.
  - vm_compute. right. left.
Defined.

(** ** The page order as a whole *)

Lemma bfs_loop_prefix w fuel self queue visited o out :
  bfs_loop w fuel self queue visited o = Some out → o `prefix_of` out.2.
Proof.
  revert queue visited o.
  induction fuel as [|fuel IH]; intros [|q queue] visited o; simpl.
  1, 3: by intros [= <-].
  - destruct (under_cap self o); [done|]. by intros [= <-].
  - destruct (under_cap self o); [|by intros [= <-]].
    case_bool_decide; [apply IH|].
    destruct (existing_page w q) as [cp|]; [|apply IH].
    intros Hrun%IH. by eapply prefix_app_l.
Qed.

Lemma sidebar_order_NoDup w self start :
  NoDup (_extract_sidebar_order w self start).
Proof.
  destruct (nav_container w start) as [anchors|] eqn:Hnav.
  - rewrite (extract_sidebar_order_container w self start anchors Hnav).
    apply (missing_from_NoDup [start]), NoDup_singleton.
  - rewrite (extract_sidebar_order_none w self start Hnav). constructor.
Qed.

(** X5. The list [build_page_tree] returns holds no page twice, whichever
    strategy produced it. *)
Theorem page_order_no_duplicates w self :
  world_ok w → state_ok self →
  ∃ b, build_page_tree w self = Done b ∧ NoDup (ordered b).
Proof.
  intros Hw Hok.
  destruct (find_start_page_returns w self Hok)
    as [[Hnone Hfiles]|(start & Hstart & Hne)].
  - rewrite (build_page_tree_no_start w self Hnone), Hfiles.
    eexists. split; [done|]. constructor.
  - rewrite (build_page_tree_start w self start Hstart Hne).
    pose proof (sidebar_order_NoDup w self start) as Hnd.
    destruct (_extract_sidebar_order w self start) as [|p o].
    + destruct (bfs_branch_spec w self Hw start) as (b & -> & _ & Hb & _).
      by exists b.
    + eexists. split; [done|]. simpl.
      rewrite append_missing_fold. by apply missing_from_NoDup.
Qed.

Lemma page_order_no_duplicates_witness :
  ∃ b, build_page_tree nav_world (site nav_world None) = Done b
       ∧ NoDup (ordered b).
Proof.
  apply page_order_no_duplicates.
  - apply example_world_ok.
  - apply site_state_ok, example_world_ok.
Defined.

Lemma prefix_head {A} (x : A) (l : list A) :
  [x] `prefix_of` l → head l = Some x.
Proof. by intros [k ->]. Qed.

(** X6. The start page comes first: always under the sidebar order, and
    under the fallback when the start page is on disk and the cap lets
    the loop run at all. *)
Theorem start_page_comes_first w self start :
  world_ok w →
  find_start_page w self = Done (Some start) → start ≠ EmptyString →
  is_Some (nav_container w start)
  ∨ (on_disk w start ∧ under_cap self [] = true) →
  ∃ b, build_page_tree w self = Done b ∧ head (ordered b) = Some start.
Proof.
  intros Hw Hstart Hne Hcase.
  rewrite (build_page_tree_start w self start Hstart Hne).
  destruct (nav_container w start) as [anchors|] eqn:Hnav.
  - rewrite (extract_sidebar_order_container w self start anchors Hnav).
    eexists. split; [done|]. simpl. by rewrite append_missing_fold.
  - rewrite (extract_sidebar_order_none w self start Hnav).
    destruct Hcase as [[? [=]]|[Hdisk Hcap]].
    destruct (bfs_loop_start w self Hw start) as ([v o] & Hout & _).
    unfold bfs_branch. rewrite Hout. eexists. split; [done|]. simpl.
    apply prefix_head. etrans; [|apply append_unvisited_prefix].
    rewrite bfs_fuel_weight in Hout.
    change (2 + ?n)%nat with (S (S n)) in Hout.
    rewrite bfs_loop_cons, Hcap in Hout.
    rewrite bool_decide_eq_false_2 in Hout by set_solver.
    rewrite (existing_page_id w start Hdisk) in Hout.
    by apply bfs_loop_prefix in Hout.
Qed.

Lemma start_page_comes_first_witness :
  ∃ b, build_page_tree abc_world (site abc_world (Some 2)) = Done b
       ∧ head (ordered b) = Some "/site/index.html".
Proof.
  apply start_page_comes_first.
  - apply example_world_ok.
  - vm_compute. reflexivity.
  - discriminate.
  - right. split; vm_compute; reflexivity.
Defined.

Lemma under_cap_negative self N l :
  max_pages self = Some N → N < 0 → under_cap self l = false.
Proof.
  unfold under_cap. intros -> HN. apply orb_false_iff.
  split; [apply Z.eqb_neq|apply Z.ltb_ge]; lia.
Qed.

Lemma append_unvisited_full self o ks :
  under_cap self o = false → foldl (append_unvisited self) o ks = o.
Proof.
  intros Hcap. induction ks as [|k ks IH]; [done|]. simpl.
  unfold append_unvisited at 2. rewrite Hcap.
  by case_bool_decide.
Qed.

(** X7. A negative cap stops the fallback before its first page: the list
    is empty, though the log says the tree was built. The sidebar order
    does not read the cap. *)
Theorem negative_cap_empties_fallback w self start N :
  max_pages self = Some N → N < 0 →
  bfs_branch w self start
  = Done (MkBuilt [] [UsingBreadthFirst; TreeBuilt 0]
            (set_visited_pages self ∅)).
Proof.
  intros HN Hneg. unfold bfs_branch. unfold bfs_fuel.
  change (2 + ?n)%nat with (S (S n)). simpl bfs_loop.
  rewrite (under_cap_negative self N [] HN Hneg).
  by rewrite append_unvisited_full by by eapply under_cap_negative.
Qed.

Lemma negative_cap_empties_fallback_witness :
  bfs_branch abc_world (site abc_world (Some (-1))) "/site/index.html"
  = Done (MkBuilt [] [UsingBreadthFirst; TreeBuilt 0]
            (set_visited_pages (site abc_world (Some (-1))) ∅)).
Proof.
  apply (negative_cap_empties_fallback _ _ _ (-1)).
  - vm_compute. reflexivity.
  - lia.
Defined.

Example run_negative_cap :
  pages_of (build_page_tree abc_world (site abc_world (Some (-1)))) = []
  ∧ pages_of (build_page_tree nav_world (site nav_world (Some (-1))))
    = ["/site/index.html"; "/site/b.html"; "/site/a.html"; "/site/c.html"].
Proof. split; vm_compute; reflexivity. Qed.

(** X8. Under the sidebar order the cap plays no part: the list is the same
    for every value of [max_pages]. *)
Theorem sidebar_order_ignores_cap w self start cap :
  find_start_page w self = Done (Some start) → start ≠ EmptyString →
  is_Some (nav_container w start) →
  pages_of (build_page_tree w (set_max_pages self cap))
  = pages_of (build_page_tree w self).
Proof.
  intros Hstart Hne [anchors Hnav].
  rewrite (build_page_tree_start w self start Hstart Hne).
  rewrite (build_page_tree_start w (set_max_pages self cap) start Hstart Hne).
  change (_extract_sidebar_order w (set_max_pages self cap) start)
    with (_extract_sidebar_order w self start).
  by rewrite (extract_sidebar_order_container w self start anchors Hnav).
Qed.

Lemma sidebar_order_ignores_cap_witness :
  pages_of (build_page_tree nav_world
              (set_max_pages (site nav_world None) (Some 1)))
  = pages_of (build_page_tree nav_world (site nav_world None)).
Proof.
  apply (sidebar_order_ignores_cap nav_world _ "/site/index.html").
  - vm_compute. reflexivity.
  - discriminate.
  - eexists. vm_compute. reflexivity.
Defined.

(** *** A positive cap truncates *)

Lemma under_cap_positive self N l :
  max_pages self = Some N → 0 < N →
  under_cap self l = bool_decide (length l < Z.to_nat N)%nat.
Proof.
  unfold under_cap. intros -> HN.
  destruct (Z.eqb_spec N 0) as [?|_]; [lia|]. simpl.
  destruct (Z.ltb_spec (Z.of_nat (length l)) N).
  - symmetry. apply bool_decide_eq_true. lia.
  - symmetry. apply bool_decide_eq_false. lia.
Qed.

Lemma take_prefix_exact {A} (o l : list A) :
  o `prefix_of` l → take (length o) l = o.
Proof. intros [k ->]. by rewrite take_app_length. Qed.

Section Truncation.
Variable w : World.
Variable self : SiteToPDF.
Variable N : Z.
Hypothesis HN : max_pages self = Some N.
Hypothesis Hpos : 0 < N.

Lemma bfs_loop_truncates fuel queue visited o out out' :
  (length o ≤ Z.to_nat N)%nat →
  bfs_loop w fuel self queue visited o = Some out →
  bfs_loop w fuel (set_max_pages self None) queue visited o = Some out' →
  out.2 = take (Z.to_nat N) out'.2.
Proof.
  revert queue visited o.
  induction fuel as [|fuel IH]; intros [|q queue] visited o Hlen; simpl.
  1, 3: intros [= <-] [= <-]; simpl; by rewrite take_ge.
  - rewrite (under_cap_positive self N o HN Hpos).
    case_bool_decide as Hroom; [done|].
    intros [= <-] [=].
  - rewrite (under_cap_positive self N o HN Hpos).
    change (under_cap (set_max_pages self None) o) with true. cbv iota.
    case_bool_decide as Hroom.
    + case_bool_decide; [by apply IH|].
      destruct (existing_page w q) as [cp|]; [|by apply IH].
      apply IH. rewrite length_app. simpl. lia.
    + intros [= <-] Hrun. simpl.
      assert (Hfull : length o = Z.to_nat N) by lia.
      rewrite <- Hfull. symmetry. apply take_prefix_exact.
      revert Hrun. case_bool_decide; [apply bfs_loop_prefix|].
      destruct (existing_page w q) as [cp|]; [|apply bfs_loop_prefix].
      intros Hrun%bfs_loop_prefix. by eapply prefix_app_l.
Qed.

Lemma append_unvisited_truncates o ks :
  (length o ≤ Z.to_nat N)%nat →
  foldl (append_unvisited self) o ks
  = take (Z.to_nat N) (foldl append_missing o ks).
Proof.
  revert o. induction ks as [|k ks IH]; intros o Hlen; simpl.
  { by rewrite take_ge. }
  unfold append_unvisited at 2. unfold append_missing at 2.
  case_bool_decide; [by apply IH|].
  rewrite (under_cap_positive self N o HN Hpos).
  case_bool_decide as Hroom.
  - apply IH. rewrite length_app. simpl. lia.
  - rewrite append_unvisited_full
      by (rewrite (under_cap_positive self N o HN Hpos);
          by apply bool_decide_eq_false).
    rewrite append_missing_fold, <- app_assoc.
    assert (Hfull : length o = Z.to_nat N) by lia.
    by rewrite <- Hfull, take_app_length.
Qed.

End Truncation.

(** X9. Under the fallback a positive cap [N] keeps the first [N] pages of
    the list the run without a cap returns, and nothing else. *)
Theorem positive_cap_truncates_fallback w self start N :
  world_ok w → max_pages self = Some N → 0 < N →
  pages_of (bfs_branch w self start)
  = take (Z.to_nat N)
      (pages_of (bfs_branch w (set_max_pages self None) start)).
Proof.
  intros Hw HN Hpos.
  destruct (bfs_loop_start w self Hw start) as ([v o] & Hout & _).
  destruct (bfs_loop_start w (set_max_pages self None) Hw start)
    as ([v' o'] & Hout' & _).
  change (bfs_fuel (set_max_pages self None)) with (bfs_fuel self) in Hout'.
  unfold bfs_branch.
  change (bfs_fuel (set_max_pages self None)) with (bfs_fuel self).
  rewrite Hout, Hout'. simpl.
  pose proof (bfs_loop_truncates w self N HN Hpos (bfs_fuel self) [start]
                ∅ [] (v, o) (v', o') (Nat.le_0_l _) Hout Hout') as Ho.
  simpl in Ho.
  rewrite (append_unvisited_uncapped (set_max_pages self None))
    by (intros l; by apply under_cap_absent; left).
  change (page_info (set_max_pages self None)) with (page_info self).
  destruct (decide (length o' < Z.to_nat N)%nat) as [Hshort|Hlong].
  - rewrite take_ge in Ho by lia. subst o.
    apply append_unvisited_truncates; [done..|lia].
  - assert (Hfull : length o = Z.to_nat N).
    { rewrite Ho, length_take. lia. }
    rewrite append_unvisited_full
      by (rewrite (under_cap_positive self N o HN Hpos);
          apply bool_decide_eq_false; lia).
    rewrite append_missing_fold, take_app_le by lia. done.
Qed.

Lemma positive_cap_truncates_fallback_witness :
  pages_of (bfs_branch abc_world (site abc_world (Some 3)) "/site/index.html")
  = take (Z.to_nat 3)
      (pages_of (bfs_branch abc_world
                   (set_max_pages (site abc_world (Some 3)) None)
                   "/site/index.html")).
Proof.
  apply positive_cap_truncates_fallback.
  - apply example_world_ok.
  - vm_compute. reflexivity.
  - lia.
Defined.

Example run_cap_three :
  pages_of (build_page_tree abc_world (site abc_world (Some 3)))
  = ["/site/index.html"; "/site/a.html"; "/site/b.html"].
Proof. vm_compute. reflexivity. Qed.

(** ** The table of contents *)





Example run_toc_item :
  toc_item (site guide_world None) 1 "/site/guide/intro/index.html"
  = "    <div class=" +:+ dq +:+ "toc-item depth-2" +:+ dq +:+ ">
        <span class=" +:+ dq +:+ "page-number" +:+ dq +:+ ">1.</span>
        <span class=" +:+ dq +:+ "depth-indicator" +:+ dq +:+ ">└─ </span>
        <span class=" +:+ dq +:+ "page-title" +:+ dq +:+ ">index</span>
        <div class=" +:+ dq +:+ "page-path" +:+ dq
    +:+ ">guide/intro/index.html</div>
    </div>
".
Proof. vm_compute. reflexivity. Qed.
